(** * Verification of [src/examples/optimized_function.py]

    (and of [original_example_function] and [measure_performance] of
    [src/examples/performance_comparison.py], which use it)

    The module defines [optimized_example_function] (multiply a number or
    repeat a string), its helpers [_process_numeric_value] and
    [_process_string_value], the wrapper [safe_example_function] and the
    batch helper [batch_process_values].

    The embedding is shallow.  Python values are a tagged type, exceptions
    are an explicit outcome, and the two effects of the module (writing to
    the logger, and allocating and updating list objects) are threaded
    through a state of a log and a heap.

    Conventions of the model:
    - [int] is unbounded ([Z]); [float] is IEEE binary64, through the
      Standard Library's executable specification [SpecFloat];
    - memory is unbounded: a [str] or a [list] of any length can be built
      (the interpreter's [MemoryError] and its index-size limit are not
      modelled), and the optional limit on the number of digits of
      [str(int)] is taken as switched off;
    - an object that is not an [int], [float], [str] or [None] is described
      by what the module observes of it: the name and the text of its
      class, and what [str()] does on it. *)

From Stdlib Require Import ZArith String Ascii List Lia.
From Stdlib Require Import Floats.SpecFloat.
From stdpp Require Import base option list gmap strings pretty.

(** ** Python values *)

Module Float.

(** binary64 *)
Definition prec : Z := 53.
Definition emax : Z := 1024.

Definition float : Type := spec_float.

(** [m * 2^e], rounded to nearest even. *)
Definition of_scaled (m e : Z) : float := binary_normalize prec emax m e false.

(** [float(n)] for an [int] n: the nearest double, and [None] where
    CPython raises [OverflowError: int too large to convert to float]
    (the rounded value does not fit the exponent range). *)
Definition of_int (n : Z) : option float :=
  match of_scaled n 0 with
  | S754_infinity _ => None
  | x => Some x
  end.

Definition mul (x y : float) : float := SFmul prec emax x y.

End Float.

(** ** Exceptions

    The classes the module raises or names in an [except] clause, and
    [OtherException] for any other class derived from [Exception] and from
    none of the three ([MemoryError], [RuntimeError], [IndexError], ...). *)
Inductive exn_class : Type :=
| TypeError
| ValueError
| OverflowError
| OtherException (name : string).

Record exn : Type := Exn { exn_cls : exn_class; exn_msg : string }.

(** [type(e).__name__] *)
Definition exn_name (e : exn) : string :=
  match exn_cls e with
  | TypeError => "TypeError"
  | ValueError => "ValueError"
  | OverflowError => "OverflowError"
  | OtherException name => name
  end.

Inductive outcome (A : Type) : Type :=
| Ok (a : A)
| Raise (e : exn).
Arguments Ok {A} a.
Arguments Raise {A} e.

(** ** Values *)

(** An object whose class derives from none of [int], [float], [str] and
    is not [None] (a list, a dict, a tuple, an instance of a user class):
    [type(o).__name__], [str(type(o))], and [str(o)], which runs the
    [__str__] or [__repr__] of the class and may raise. *)
Record pyobject : Type := PyObject {
  ob_type_name : string;
  ob_type_str : string;
  ob_str : outcome string
}.

Inductive pyval : Type :=
| VNone
| VBool (b : bool)
| VInt (n : Z)
| VFloat (x : Float.float)
| VStr (s : string)
| VOther (o : pyobject).

(** [isinstance(v, int)]: [bool] is a subclass of [int]. *)
Definition isinstance_int (v : pyval) : bool :=
  match v with VInt _ | VBool _ => true | _ => false end.

Definition isinstance_float (v : pyval) : bool :=
  match v with VFloat _ => true | _ => false end.

Definition isinstance_str (v : pyval) : bool :=
  match v with VStr _ => true | _ => false end.

(** [type(v).__name__] *)
Definition type_name (v : pyval) : string :=
  match v with
  | VNone => "NoneType"
  | VBool _ => "bool"
  | VInt _ => "int"
  | VFloat _ => "float"
  | VStr _ => "str"
  | VOther o => ob_type_name o
  end.

(** [str(type(v))], as an f-string formats [{type(v)}]. *)
Definition type_str (v : pyval) : string :=
  match v with
  | VOther o => ob_type_str o
  | _ => "<class '" +:+ type_name v +:+ "'>"
  end.

(** The [int] behind an instance of [int]. *)
Definition int_of_bool (b : bool) : Z := if b then 1%Z else 0%Z.

(** [s * n] for a [str]: s concatenated with itself n times. *)
Fixpoint str_repeat (s : string) (n : nat) : string :=
  match n with
  | O => ""
  | S k => s +:+ str_repeat s k
  end.

(** [len(s)] *)
Definition len_str (s : string) : Z := Z.of_nat (String.length s).

(** [s[:n]] *)
Definition str_prefix (n : nat) (s : string) : string := String.substring 0 n s.

(** ** The state: the logger's output and the heap of list objects *)

Inductive level : Type := WARNING | ERROR.

Record log_record : Type := LogRecord { lr_level : level; lr_message : string }.

Record type_info_t : Type := TypeInfo {
  ti_input_type : string;
  ti_input_value : string;
  ti_multiplier : Z
}.

Record error_info : Type := ErrorInfo {
  error_type : string;
  error_message : string
}.

(** The dict [safe_example_function] returns; [result] is [VNone] and
    [error] is [None] until they are set. *)
Record SafeResult : Type := MkSafeResult {
  success : bool;
  result : pyval;
  error : option error_info;
  type_info : type_info_t
}.

Definition loc : Type := positive.

(** The list objects of the module, by what they hold: arbitrary values
    (the caller's list), [(index, value)] tuples (the three groups), and
    [None] or result dicts (the output). *)
Inductive pylist : Type :=
| LValues (xs : list pyval)
| LIndexed (ps : list (nat * pyval))
| LResults (rs : list (option SafeResult)).

Definition pylist_len (l : pylist) : nat :=
  match l with
  | LValues xs => length xs
  | LIndexed ps => length ps
  | LResults rs => length rs
  end.

Record state : Type := State {
  heap : gmap loc pylist;
  log : list log_record
}.

(** ** The monad of the module's effects *)

Definition M (A : Type) : Type := state -> outcome A * state.

Definition ret {A} (a : A) : M A := fun st => (Ok a, st).

Definition bind {A B} (c : M A) (k : A -> M B) : M B :=
  fun st =>
    match c st with
    | (Ok a, st') => k a st'
    | (Raise e, st') => (Raise e, st')
    end.

Definition raise {A} (e : exn) : M A := fun st => (Raise e, st).

(** [try: c  except ... as e: h e] *)
Definition try_except {A} (c : M A) (h : exn -> M A) : M A :=
  fun st =>
    match c st with
    | (Ok a, st') => (Ok a, st')
    | (Raise e, st') => h e st'
    end.

Notation "'let!' x ':=' c 'in' k" := (bind c (fun x => k))
  (at level 10, x name, c at level 100, k at level 200).
Notation "'let!' ' p ':=' c 'in' k" := (bind c (fun x => match x with p => k end))
  (at level 10, p pattern, c at level 100, k at level 200).
Notation "'run' c 'in' k" := (bind c (fun _ => k))
  (at level 10, c at level 100, k at level 200).

(** [logger.warning(msg)], [logger.error(msg)]: the logger is configured at
    level INFO, so both are emitted. *)
Definition logger_emit (lv : level) (msg : string) : M unit :=
  fun st => (Ok tt, {| heap := heap st; log := log st ++ [LogRecord lv msg] |}).

Definition logger_warning : string -> M unit := logger_emit WARNING.
Definition logger_error : string -> M unit := logger_emit ERROR.

(** ** [optimized_example_function] and its helpers *)

(** The [int] an instance of [int] stands for. *)
Definition int_value (v : pyval) : Z :=
  match v with
  | VInt n => n
  | VBool b => int_of_bool b
  | _ => 0%Z
  end.

(** [value * multiplier] with an [int] on the right.  An [int] or [bool]
    gives the exact product; a [float] converts the multiplier first, which
    raises when it is out of the range of doubles; a [str] is repeated.  The
    module only multiplies instances of [int], [float] and [str]; [None]
    has no product, and the other objects are taken to have none. *)
Definition py_mul (value : pyval) (multiplier : Z) : M pyval :=
  match value with
  | VInt _ | VBool _ => ret (VInt (int_value value * multiplier))
  | VFloat x =>
      match Float.of_int multiplier with
      | Some y => ret (VFloat (Float.mul x y))
      | None => raise (Exn OverflowError "int too large to convert to float")
      end
  | VStr s => ret (VStr (str_repeat s (Z.to_nat multiplier)))
  | _ =>
      raise (Exn TypeError
               ("unsupported operand type(s) for *: '" +:+ type_name value +:+
                "' and 'int'"))
  end.

(** [abs(result) > 10**15] *)
Definition very_large (result : Z) : bool := (10 ^ 15 <? Z.abs result)%Z.

Definition _process_numeric_value (value : pyval) (multiplier : Z) : M pyval :=
  try_except
    (let! result := py_mul value multiplier in
     run (if isinstance_int value && isinstance_int result then
            if very_large (int_value result) then
              logger_warning
                ("Result " +:+ pretty (int_value result) +:+
                 " is very large, consider reviewing input values")
            else ret tt
          else ret tt) in
     ret result)
    (fun e =>
       match exn_cls e with
       | OverflowError =>
           run logger_error
                 ("Overflow error in numeric processing: " +:+ exn_msg e) in
           raise e
       | _ => raise e
       end).

Definition _process_string_value (value : string) (multiplier : Z) : M string :=
  if (multiplier =? 0)%Z then ret ""
  else
    run (if (10 ^ 6 <? len_str value * multiplier)%Z then
           logger_warning
             ("String multiplication would create a very large string (" +:+
              pretty (len_str value * multiplier)%Z +:+ " chars)")
         else ret tt) in
    ret (str_repeat value (Z.to_nat multiplier)).

Definition optimized_example_function (input_value : pyval) (multiplier : Z)
  : M pyval :=
  if (multiplier <? 0)%Z then
    raise (Exn ValueError "Multiplier must be non-negative")
  else if isinstance_int input_value || isinstance_float input_value then
    _process_numeric_value input_value multiplier
  else
    match input_value with
    | VStr s =>
        let! r := _process_string_value s multiplier in ret (VStr r)
    | _ =>
        raise (Exn TypeError
                 ("Unsupported type: " +:+ type_str input_value +:+
                  ". Supported types: int, float, str"))
    end.

(** ** List objects *)

(** A reference the program holds always points to a list of the expected
    content; the operations answer a reference that does not with this
    error, which no run of the module from a well-formed heap reaches. *)
Definition bad_reference : exn := Exn (OtherException "SystemError") "bad list reference".

(** A list display or [[None] * n]: a new list object. *)
Definition list_new (l : pylist) : M loc :=
  fun st =>
    let r := fresh (dom (heap st)) in
    (Ok r, {| heap := <[r := l]> (heap st); log := log st |}).

(** [len(r)] *)
Definition list_len (r : loc) : M nat :=
  fun st =>
    match heap st !! r with
    | Some l => (Ok (pylist_len l), st)
    | None => (Raise bad_reference, st)
    end.

Definition index_error (msg : string) : exn := Exn (OtherException "IndexError") msg.

(** [r[i]] on a list of values *)
Definition values_getitem (r : loc) (i : nat) : M pyval :=
  fun st =>
    match heap st !! r with
    | Some (LValues xs) =>
        match xs !! i with
        | Some v => (Ok v, st)
        | None => (Raise (index_error "list index out of range"), st)
        end
    | _ => (Raise bad_reference, st)
    end.

(** [r[k]] on a list of [(index, value)] tuples *)
Definition indexed_getitem (r : loc) (k : nat) : M (nat * pyval) :=
  fun st =>
    match heap st !! r with
    | Some (LIndexed ps) =>
        match ps !! k with
        | Some p => (Ok p, st)
        | None => (Raise (index_error "list index out of range"), st)
        end
    | _ => (Raise bad_reference, st)
    end.

(** [r.append((i, value))] *)
Definition indexed_append (r : loc) (p : nat * pyval) : M unit :=
  fun st =>
    match heap st !! r with
    | Some (LIndexed ps) =>
        (Ok tt, {| heap := <[r := LIndexed (ps ++ [p])]> (heap st); log := log st |})
    | _ => (Raise bad_reference, st)
    end.

(** [r[i] = x] on the output list: Python raises out of range. *)
Definition results_setitem (r : loc) (i : nat) (x : SafeResult) : M unit :=
  fun st =>
    match heap st !! r with
    | Some (LResults rs) =>
        if decide (i < length rs) then
          (Ok tt, {| heap := <[r := LResults (<[i := Some x]> rs)]> (heap st);
                     log := log st |})
        else (Raise (index_error "list assignment index out of range"), st)
    | _ => (Raise bad_reference, st)
    end.

(** The steps [i, i+1, ..., i+n-1] of a loop. *)
Fixpoint for_range (n i : nat) (body : nat -> M unit) : M unit :=
  match n with
  | O => ret tt
  | S n' => run body i in for_range n' (S i) body
  end.

(** [for i, value in enumerate(values): body].  The loop takes as many
    steps as the list is long when the loop starts and reads the element
    from the heap at each step.  (Python's list iterator also follows a
    change of the length of the list; no loop body of the module changes
    the list it iterates over.) *)
Definition for_enumerate (values : loc) (body : nat -> pyval -> M unit) : M unit :=
  let! n := list_len values in
  for_range n 0 (fun i => let! value := values_getitem values i in body i value).

(** [for i, value in group: body] over a list of tuples. *)
Definition for_indexed (group : loc) (body : nat -> pyval -> M unit) : M unit :=
  let! n := list_len group in
  for_range n 0 (fun k => let! p := indexed_getitem group k in body (fst p) (snd p)).

(** ** [safe_example_function] and [batch_process_values] *)

(** The argument [values] of [batch_process_values]: a reference to a list
    object, or a value that is not a list. *)
Inductive pyarg : Type :=
| ARef (r : loc)
| AVal (v : pyval).

(** [result_info.update({'success': True, 'result': result})] *)
Definition update_success (result_info : SafeResult) (r : pyval) : SafeResult :=
  {| success := true; result := r;
     error := error result_info; type_info := type_info result_info |}.

(** [result_info['error'] = {'type': t, 'message': m}] *)
Definition set_error (result_info : SafeResult) (t m : string) : SafeResult :=
  {| success := success result_info; result := result result_info;
     error := Some (ErrorInfo t m); type_info := type_info result_info |}.

(** Lines 107-126: the [try] statement around the call of line 108, for
    the call [call].  The first [except] clause catches [TypeError],
    [ValueError] and [OverflowError], the second every other exception. *)
Definition try_call (call : M pyval) (result_info : SafeResult) : M SafeResult :=
  try_except
    (let! r := call in
     ret (update_success result_info r))
    (fun e =>
       match exn_cls e with
       | TypeError | ValueError | OverflowError =>
           ret (set_error result_info (exn_name e) (exn_msg e))
       | OtherException _ =>
           run logger_error
                 ("Unexpected error in safe_example_function: " +:+ exn_msg e) in
           ret (set_error result_info "UnexpectedError"
                          "An unexpected error occurred")
       end).

(** Lines 96-105: the dict before the call; [preview] is [str(input_value)]. *)
Definition initial_info (input_value : pyval) (multiplier : Z) (preview : string)
  : SafeResult :=
  {| success := false;
     result := VNone;
     error := None;
     type_info := {| ti_input_type := type_name input_value;
                     ti_input_value := str_prefix 100 preview;
                     ti_multiplier := multiplier |} |}.

Section Runtime.

(** [str(x)] for a [float] x: the shortest decimal text that reads back
    as x.  It always returns; the module only stores its first 100
    characters in [type_info]. *)
Variable float_str : Float.float -> string.

(** [str(v)] *)
Definition py_str (v : pyval) : M string :=
  match v with
  | VNone => ret "None"
  | VBool b => ret (if b then "True" else "False")
  | VInt n => ret (pretty n)
  | VFloat x => ret (float_str x)
  | VStr s => ret s
  | VOther o =>
      match ob_str o with
      | Ok s => ret s
      | Raise e => raise e
      end
  end.

Definition safe_example_function (input_value : pyval) (multiplier : Z)
  : M SafeResult :=
  let! preview := py_str input_value in
  let result_info := initial_info input_value multiplier preview in
  try_call (optimized_example_function input_value multiplier) result_info.

Definition batch_process_values (values : pyarg) (multiplier : Z) : M loc :=
  match values with
  | AVal _ => raise (Exn TypeError "Values must be a list")
  | ARef values =>
      let! results := list_new (LResults []) in
      let! numeric_values := list_new (LIndexed []) in
      let! string_values := list_new (LIndexed []) in
      let! other_values := list_new (LIndexed []) in
      run for_enumerate values (fun i value =>
            if isinstance_int value || isinstance_float value then
              indexed_append numeric_values (i, value)
            else if isinstance_str value then
              indexed_append string_values (i, value)
            else
              indexed_append other_values (i, value)) in
      let! n := list_len values in
      let! results := list_new (LResults (replicate n None)) in
      run for_indexed numeric_values (fun i value =>
            let! r := safe_example_function value multiplier in
            results_setitem results i r) in
      run for_indexed string_values (fun i value =>
            let! r := safe_example_function value multiplier in
            results_setitem results i r) in
      run for_indexed other_values (fun i value =>
            let! r := safe_example_function value multiplier in
            results_setitem results i r) in
      ret results
  end.

End Runtime.

(** ** Auxiliary definitions of the statements *)

Definition st_empty : state := {| heap := ∅; log := [] |}.

(** The state after more log records. *)
Definition add_log (st : state) (rs : list log_record) : state :=
  {| heap := heap st; log := log st ++ rs |}.

(** [log_only c]: from any state, [c] leaves the heap alone, appends the
    same records to the log and has the same outcome. *)
Definition log_only {A} (c : M A) : Prop :=
  ∀ st, c st = (fst (c st_empty), add_log st (log (snd (c st_empty)))).

(** The outcome and the log records of a call of
    [optimized_example_function]; they do not depend on the state the call
    starts from ([transform_run]). *)
Definition transform_outcome (v : pyval) (f : Z) : outcome pyval :=
  fst (optimized_example_function v f st_empty).

Definition transform_log (v : pyval) (f : Z) : list log_record :=
  log (snd (optimized_example_function v f st_empty)).

(** The log records of the module. *)
Definition numeric_warning (r : Z) : log_record :=
  LogRecord WARNING
    ("Result " +:+ pretty r +:+ " is very large, consider reviewing input values").

Definition string_warning (n : Z) : log_record :=
  LogRecord WARNING
    ("String multiplication would create a very large string (" +:+
     pretty n +:+ " chars)").

Definition overflow_record : log_record :=
  LogRecord ERROR
    "Overflow error in numeric processing: int too large to convert to float".

(** [isinstance(v, (int, float))] or [isinstance(v, str)]: the kinds
    [optimized_example_function] accepts. *)
Definition supported (v : pyval) : bool :=
  isinstance_int v || isinstance_float v || isinstance_str v.

(** The [TypeError] of [optimized_example_function]. *)
Definition unsupported_type (v : pyval) : exn :=
  Exn TypeError
    ("Unsupported type: " +:+ type_str v +:+ ". Supported types: int, float, str").

(** The exceptions of the first [except] clause of [safe_example_function]. *)
Definition expected (e : exn) : bool :=
  match exn_cls e with
  | OtherException _ => false
  | _ => true
  end.

(** What [str(v)] does: its text, or the exception it raises. *)
Definition str_outcome (float_str : Float.float -> string) (v : pyval)
  : outcome string :=
  fst (py_str float_str v st_empty).

(** The outcome and the log records of a call of [safe_example_function]
    ([safe_run]). *)
Definition safe_outcome (float_str : Float.float -> string) (v : pyval) (f : Z)
  : outcome SafeResult :=
  fst (safe_example_function float_str v f st_empty).

Definition safe_log (float_str : Float.float -> string) (v : pyval) (f : Z)
  : list log_record :=
  log (snd (safe_example_function float_str v f st_empty)).

(** An instance of a user class whose [__str__] raises:
    [class Bad:  def __str__(self): raise RuntimeError("boom")]. *)
Definition bad_object : pyval :=
  VOther {| ob_type_name := "Bad";
            ob_type_str := "<class '__main__.Bad'>";
            ob_str := Raise (Exn (OtherException "RuntimeError") "boom") |}.


(** ** The naive batch of the specification, and the groups of the code *)

(** [isinstance(v, (int, float))], and the values of the third group. *)
Definition is_numeric (v : pyval) : bool := isinstance_int v || isinstance_float v.

Definition is_other (v : pyval) : bool := negb (is_numeric v) && negb (isinstance_str v).

(** The batch as the specification states it: [safe_example_function] on
    each element in turn, in the order of the list. *)
Fixpoint map_safe (float_str : Float.float -> string) (xs : list pyval) (f : Z)
  : M (list SafeResult) :=
  match xs with
  | [] => ret []
  | v :: xs' =>
      let! r := safe_example_function float_str v f in
      let! rs := map_safe float_str xs' f in
      ret (r :: rs)
  end.

(** The same on outcomes: the results in order, or the first exception. *)
Fixpoint map_outcome {A B} (g : A -> outcome B) (l : list A) : outcome (list B) :=
  match l with
  | [] => Ok []
  | a :: l' =>
      match g a with
      | Ok b =>
          match map_outcome g l' with
          | Ok bs => Ok (b :: bs)
          | Raise e => Raise e
          end
      | Raise e => Raise e
      end
  end.

(** The elements of [xs] that satisfy [P], each with its index in the list
    ([i] is the index of the first element), in the order of the list: the
    content of a group after the first loop. *)
Fixpoint group_of (P : pyval -> bool) (i : nat) (xs : list pyval)
  : list (nat * pyval) :=
  match xs with
  | [] => []
  | v :: xs' =>
      if P v then (i, v) :: group_of P (S i) xs' else group_of P (S i) xs'
  end.

(** The outcome of the loop over a group, and the output list after it:
    each result is stored at its index, up to the first call that raises. *)
Fixpoint group_outcome (g : pyval -> outcome SafeResult) (ps : list (nat * pyval))
  : outcome unit :=
  match ps with
  | [] => Ok tt
  | p :: ps' =>
      match g (snd p) with
      | Ok _ => group_outcome g ps'
      | Raise e => Raise e
      end
  end.

Fixpoint write_group (g : pyval -> outcome SafeResult) (ps : list (nat * pyval))
    (rs : list (option SafeResult)) : list (option SafeResult) :=
  match ps with
  | [] => rs
  | p :: ps' =>
      match g (snd p) with
      | Ok r => write_group g ps' (<[fst p := Some r]> rs)
      | Raise _ => rs
      end
  end.

(** Every tuple of a group holds an index of [xs] and the element there. *)
Definition consistent (xs : list pyval) (ps : list (nat * pyval)) : Prop :=
  ∀ i v, (i, v) ∈ ps -> xs !! i = Some v.

(** The heap of [st'] still has every list object of [st], unchanged. *)
Definition preserves (st st' : state) : Prop :=
  ∀ l, l ∈ dom (heap st) -> heap st' !! l = heap st !! l.


(** ** Sample inputs *)

(** [1.5] and [3.5] *)
Definition one_and_half : Float.float := Float.of_scaled 3 (-1).
Definition three_and_half : Float.float := Float.of_scaled 7 (-1).

(** A [float_str] for the samples; the samples do not look at its text. *)
Definition sample_float_str (x : Float.float) : string := "<float>".

(** The list [[1, 2.5, "test", 42, "hello"]] of the module's demo, at
    address 1 of an otherwise empty heap. *)
Definition demo_values : list pyval :=
  [VInt 1; VFloat (Float.of_scaled 5 (-1)); VStr "test"; VInt 42; VStr "hello"].

Definition demo_state : state :=
  {| heap := {[ 1%positive := LValues demo_values ]}; log := [] |}.

(** A list that holds a number and an object whose [__str__] raises. *)
Definition bad_state : state :=
  {| heap := {[ 1%positive := LValues [VInt 1; bad_object] ]}; log := [] |}.

(** A call that runs out of memory, as the interpreter lets any call. *)
Definition out_of_memory : M pyval :=
  raise (Exn (OtherException "MemoryError") "out of memory").

(** The error record of the second [except] clause. *)
Definition unexpected_error : error_info :=
  ErrorInfo "UnexpectedError" "An unexpected error occurred".

(** ** The log of a batch *)

(** The log records of a run of calls, in the order of the calls and up to
    the first call that raises: of the naive batch over [xs] ([map_log]),
    and of a loop of [batch_process_values] over a group ([group_log]).
    [g] gives the outcome of a call and [l] its records. *)
Fixpoint map_log (g : pyval -> outcome SafeResult) (l : pyval -> list log_record)
    (xs : list pyval) : list log_record :=
  match xs with
  | [] => []
  | v :: xs' =>
      l v ++ match g v with
             | Ok _ => map_log g l xs'
             | Raise _ => []
             end
  end.

Definition group_log (g : pyval -> outcome SafeResult) (l : pyval -> list log_record)
    (ps : list (nat * pyval)) : list log_record :=
  map_log g l (snd <$> ps).

(** ** [performance_comparison.py]

    The functions of this file also write to the standard output, and
    [measure_performance] reads the clock and the memory tracer.  The
    world of a run is the state of the module and the lines printed so
    far; the readings of the clock and of the tracer are inputs. *)

Record world : Type := World {
  w_state : state;
  w_stdout : list string
}.

Definition IO (A : Type) : Type := world -> outcome A * world.

Definition io_ret {A} (a : A) : IO A := fun w => (Ok a, w).

Definition io_bind {A B} (c : IO A) (k : A -> IO B) : IO B :=
  fun w =>
    match c w with
    | (Ok a, w') => k a w'
    | (Raise e, w') => (Raise e, w')
    end.

Definition io_raise {A} (e : exn) : IO A := fun w => (Raise e, w).

(** [try: c  except ... as e: h e] *)
Definition io_try {A} (c : IO A) (h : exn -> IO A) : IO A :=
  fun w =>
    match c w with
    | (Ok a, w') => (Ok a, w')
    | (Raise e, w') => h e w'
    end.

(** A computation of the module, in the world. *)
Definition io_lift {A} (c : M A) : IO A :=
  fun w =>
    match c (w_state w) with
    | (o, st') => (o, {| w_state := st'; w_stdout := w_stdout w |})
    end.

(** [print(line)] *)
Definition print (line : string) : IO unit :=
  fun w => (Ok tt, {| w_state := w_state w; w_stdout := w_stdout w ++ [line] |}).

Notation "'do!' x ':=' c 'in' k" := (io_bind c (fun x => k))
  (at level 10, x name, c at level 100, k at level 200).
Notation "'exec' c 'in' k" := (io_bind c (fun _ => k))
  (at level 10, c at level 100, k at level 200).

Section Objects.

(** [o * n] for an object of another class and an [int] n: what the
    [__mul__] of its class does (a list is repeated, a dict raises
    [TypeError]). *)
Variable object_mul : pyobject -> Z -> IO pyval.

(** [input_value * n] for any value. *)
Definition value_mul (input_value : pyval) (n : Z) : IO pyval :=
  match input_value with
  | VOther o => object_mul o n
  | _ => io_lift (py_mul input_value n)
  end.

Definition original_example_function (input_value : pyval) : IO pyval :=
  io_try
    (do! result := value_mul input_value 2 in
     io_ret result)
    (fun e =>
       match exn_cls e with
       | TypeError =>
           exec print "Error: Input must be a type that supports multiplication (e.g., numbers or strings)" in
           io_ret VNone
       | _ =>
           exec print ("An unexpected error occurred: " +:+ exn_msg e) in
           io_ret VNone
       end).

End Objects.

(** [x - y] and [x / y] on doubles. *)
Definition float_sub (x y : Float.float) : Float.float := SFsub Float.prec Float.emax x y.
Definition float_div (x y : Float.float) : Float.float := SFdiv Float.prec Float.emax x y.

Definition float_is_zero (x : Float.float) : bool :=
  match x with S754_zero _ => true | _ => false end.

Definition zero_division_error : exn :=
  Exn (OtherException "ZeroDivisionError") "float division by zero".

(** [x / n] for a [float] x and an [int] n: n is converted first, and a
    zero divisor raises. *)
Definition float_div_int (x : Float.float) (n : Z) : IO Float.float :=
  match Float.of_int n with
  | None => io_raise (Exn OverflowError "int too large to convert to float")
  | Some y =>
      if float_is_zero y then io_raise zero_division_error
      else io_ret (float_div x y)
  end.

(** [n / 1024] for an [int] n: the double nearest to the quotient. *)
Definition int_div_1024 (n : Z) : IO Float.float :=
  match Float.of_scaled n (-10) with
  | S754_infinity _ =>
      io_raise (Exn OverflowError "integer division result too large for a float")
  | x => io_ret x
  end.

(** What [time.perf_counter()] returns before and after the loops, and
    what [tracemalloc.get_traced_memory()] returns. *)
Record readings : Type := Readings {
  start_time : Float.float;
  end_time : Float.float;
  traced_current : Z;
  traced_peak : Z
}.

(** The dict [measure_performance] returns. *)
Record metrics (A : Type) : Type := Metrics {
  execution_time : Float.float;
  average_time_per_call : Float.float;
  successful_calls : nat;
  errors : Z;
  memory_current : Float.float;
  memory_peak : Float.float;
  results_sample : list A
}.
Arguments Metrics {A}.
Arguments execution_time {A}.
Arguments average_time_per_call {A}.
Arguments successful_calls {A}.
Arguments errors {A}.
Arguments memory_current {A}.
Arguments memory_peak {A}.
Arguments results_sample {A}.

Section Measure.

Context {A : Type}.

(** The function under test, applied to the values of a tuple. *)
Variable func : list pyval -> IO A.

(** Lines 49-56: one call; [results] and [errors] before and after. *)
Definition measure_call (args : list pyval) (results : list A) (errors : Z)
  : IO (list A * Z) :=
  io_try
    (do! result := (match args with
                    | [a] => func [a]
                    | _ => func args
                    end) in
     io_ret (results ++ [result], errors))
    (fun _ => io_ret (results, (errors + 1)%Z)).

(** Lines 48-56: [for args in args_list]. *)
Fixpoint measure_args (args_list : list (list pyval)) (results : list A) (errors : Z)
  : IO (list A * Z) :=
  match args_list with
  | [] => io_ret (results, errors)
  | args :: rest =>
      do! acc := measure_call args results errors in
      measure_args rest (fst acc) (snd acc)
  end.

(** Lines 47-56: [for _ in range(iterations)], n steps. *)
Fixpoint measure_iterations (n : nat) (args_list : list (list pyval))
    (results : list A) (errors : Z) : IO (list A * Z) :=
  match n with
  | O => io_ret (results, errors)
  | S n' =>
      do! acc := measure_args args_list results errors in
      measure_iterations n' args_list (fst acc) (snd acc)
  end.

Definition measure_performance (args_list : list (list pyval)) (iterations : Z)
    (env : readings) : IO (metrics A) :=
  do! acc := measure_iterations (Z.to_nat iterations) args_list [] 0%Z in
  let results := fst acc in
  let errors := snd acc in
  let execution_time := float_sub (end_time env) (start_time env) in
  do! average_time_per_call :=
    float_div_int (float_sub (end_time env) (start_time env))
                  (iterations * Z.of_nat (length args_list)) in
  do! current_kb := int_div_1024 (traced_current env) in
  do! memory_current := float_div_int current_kb 1024 in
  do! peak_kb := int_div_1024 (traced_peak env) in
  do! memory_peak := float_div_int peak_kb 1024 in
  io_ret {| execution_time := execution_time;
            average_time_per_call := average_time_per_call;
            successful_calls := length results;
            errors := errors;
            memory_current := memory_current;
            memory_peak := memory_peak;
            results_sample := match results with
                              | [] => []
                              | _ => take 5 results
                              end |}.

End Measure.


(** A function under test that always fails, and the readings of a run. *)
Definition always_fails (args : list pyval) : IO pyval :=
  io_raise (Exn (OtherException "RuntimeError") "no").

Definition sample_readings : readings :=
  {| start_time := Float.of_scaled 1 0;
     end_time := Float.of_scaled 3 0;
     traced_current := 2048;
     traced_peak := 4096 |}.

Definition sample_world : world := {| w_state := st_empty; w_stdout := [] |}.


(** * Properties *)

Lemma add_log_nil st : add_log st [] = st.
Proof. destruct st as [h l]. unfold add_log; simpl. by rewrite app_nil_r. Qed.

Lemma add_log_app st r1 r2 : add_log (add_log st r1) r2 = add_log st (r1 ++ r2).
Proof. unfold add_log; simpl. by rewrite app_assoc. Qed.

(** ** Computations that only log *)

Lemma log_only_ret {A} (a : A) : log_only (ret a).
Proof. intros st. unfold ret; simpl. by rewrite add_log_nil. Qed.

Lemma log_only_raise {A} e : log_only (@raise A e).
Proof. intros st. unfold raise; simpl. by rewrite add_log_nil. Qed.

Lemma log_only_emit lv msg : log_only (logger_emit lv msg).
Proof. intros st. reflexivity. Qed.

Lemma log_only_bind {A B} (c : M A) (k : A -> M B) :
  log_only c -> (∀ a, log_only (k a)) -> log_only (bind c k).
Proof.
  intros Hc Hk st. unfold bind.
  rewrite (Hc st). pose proof (Hc st_empty) as H0.
  destruct (c st_empty) as [[a|e] s0]; simpl in *.
  - injection H0 as H0. rewrite (Hk a (add_log st (log s0))), (Hk a s0).
    simpl. by rewrite add_log_app.
  - reflexivity.
Qed.

Lemma log_only_try {A} (c : M A) (h : exn -> M A) :
  log_only c -> (∀ e, log_only (h e)) -> log_only (try_except c h).
Proof.
  intros Hc Hh st. unfold try_except.
  rewrite (Hc st). pose proof (Hc st_empty) as H0.
  destruct (c st_empty) as [[a|e] s0]; simpl in *.
  - reflexivity.
  - injection H0 as H0. rewrite (Hh e (add_log st (log s0))), (Hh e s0).
    simpl. by rewrite add_log_app.
Qed.

Ltac log_only_step :=
  first
    [ apply log_only_bind; [| intros ?]
    | apply log_only_try; [| intros ?]
    | apply log_only_ret
    | apply log_only_raise
    | apply log_only_emit
    | match goal with
      | |- log_only (if ?b then _ else _) => destruct b
      | |- log_only (match ?x with _ => _ end) => destruct x
      end ].

Lemma log_only_py_mul v f : log_only (py_mul v f).
Proof. unfold py_mul. repeat log_only_step. Qed.

Lemma log_only_numeric v f : log_only (_process_numeric_value v f).
Proof.
  unfold _process_numeric_value, logger_warning, logger_error.
  apply log_only_try; [apply log_only_bind; [apply log_only_py_mul|intros ?]|intros ?];
    repeat log_only_step.
Qed.

Lemma log_only_string s f : log_only (_process_string_value s f).
Proof. unfold _process_string_value, logger_warning. repeat log_only_step. Qed.

Lemma log_only_transform v f : log_only (optimized_example_function v f).
Proof.
  unfold optimized_example_function.
  destruct (f <? 0)%Z; [apply log_only_raise|].
  destruct (isinstance_int v || isinstance_float v); [apply log_only_numeric|].
  destruct v; try apply log_only_raise.
  apply log_only_bind; [apply log_only_string|intros ?; apply log_only_ret].
Qed.

Lemma transform_run v f st :
  optimized_example_function v f st
  = (transform_outcome v f, add_log st (transform_log v f)).
Proof. apply log_only_transform. Qed.

(** ** [optimized_example_function] *)

Lemma transform_negative v f st :
  (f < 0)%Z ->
  optimized_example_function v f st =
    (Raise (Exn ValueError "Multiplier must be non-negative"), st).
Proof.
  intros Hf. unfold optimized_example_function.
  by rewrite (proj2 (Z.ltb_lt f 0) Hf).
Qed.

Lemma transform_int v f st :
  (0 <= f)%Z -> isinstance_int v = true ->
  optimized_example_function v f st =
    (Ok (VInt (int_value v * f)),
     add_log st (if very_large (int_value v * f)
                 then [numeric_warning (int_value v * f)] else [])).
Proof.
  intros Hf Hv. unfold optimized_example_function.
  rewrite (proj2 (Z.ltb_ge f 0) Hf), Hv. cbn [orb].
  unfold _process_numeric_value, try_except, bind.
  assert (py_mul v f st = (Ok (VInt (int_value v * f)), st)) as ->
    by (destruct v; try discriminate; reflexivity).
  rewrite Hv. cbn [isinstance_int andb int_value].
  destruct (very_large (int_value v * f)).
  - reflexivity.
  - by rewrite add_log_nil.
Qed.

Lemma transform_float x f st :
  (0 <= f)%Z ->
  optimized_example_function (VFloat x) f st =
    match Float.of_int f with
    | Some y => (Ok (VFloat (Float.mul x y)), st)
    | None =>
        (Raise (Exn OverflowError "int too large to convert to float"),
         add_log st [overflow_record])
    end.
Proof.
  intros Hf. unfold optimized_example_function.
  rewrite (proj2 (Z.ltb_ge f 0) Hf). cbn [isinstance_int isinstance_float orb].
  unfold _process_numeric_value, try_except, bind, py_mul.
  destruct (Float.of_int f); reflexivity.
Qed.

Lemma transform_str t f st :
  (0 <= f)%Z ->
  optimized_example_function (VStr t) f st =
    (Ok (VStr (str_repeat t (Z.to_nat f))),
     add_log st (if (10 ^ 6 <? len_str t * f)%Z
                 then [string_warning (len_str t * f)] else [])).
Proof.
  intros Hf. unfold optimized_example_function.
  rewrite (proj2 (Z.ltb_ge f 0) Hf). cbn [isinstance_int isinstance_float orb].
  unfold _process_string_value, bind.
  destruct (Z.eqb_spec f 0) as [->|Hne].
  - rewrite Z.mul_0_r. cbn. by rewrite add_log_nil.
  - destruct (10 ^ 6 <? len_str t * f)%Z.
    + reflexivity.
    + unfold ret. by rewrite add_log_nil.
Qed.

Lemma transform_unsupported v f st :
  (0 <= f)%Z -> supported v = false ->
  optimized_example_function v f st = (Raise (unsupported_type v), st).
Proof.
  intros Hf Hv. unfold optimized_example_function.
  rewrite (proj2 (Z.ltb_ge f 0) Hf).
  destruct v; try discriminate Hv; reflexivity.
Qed.





(** ** [safe_example_function] *)

Section SafeProperties.

Variable float_str : Float.float -> string.

Lemma log_only_py_str v : log_only (py_str float_str v).
Proof. unfold py_str. repeat log_only_step. Qed.

Lemma log_only_try_call call info : log_only call -> log_only (try_call call info).
Proof.
  intros Hc. unfold try_call, logger_error.
  apply log_only_try.
  - apply log_only_bind; [exact Hc|intros ?; apply log_only_ret].
  - intros e. destruct (exn_cls e); repeat log_only_step.
Qed.

Lemma log_only_safe v f : log_only (safe_example_function float_str v f).
Proof.
  unfold safe_example_function.
  apply log_only_bind; [apply log_only_py_str|intros s].
  apply log_only_try_call, log_only_transform.
Qed.

Lemma safe_run v f st :
  safe_example_function float_str v f st =
    (safe_outcome float_str v f, add_log st (safe_log float_str v f)).
Proof. apply log_only_safe. Qed.

Lemma py_str_run v st : py_str float_str v st = (str_outcome float_str v, st).
Proof.
  rewrite (log_only_py_str v st). unfold str_outcome. f_equal.
  assert (log (snd (py_str float_str v st_empty)) = []) as ->
    by (destruct v as [| | | | |[? ? [?|?]]]; reflexivity).
  apply add_log_nil.
Qed.

(** [str()] returns on every value but an object whose [__str__] raises. *)
Lemma str_outcome_builtin v :
  (∀ o, v <> VOther o) -> ∃ s, str_outcome float_str v = Ok s.
Proof.
  intros Hv. destruct v; try (eexists; reflexivity).
  by destruct (Hv o).
Qed.

Lemma str_outcome_supported v :
  supported v = true -> ∃ s, str_outcome float_str v = Ok s.
Proof. intros Hv. apply str_outcome_builtin. intros o ->. discriminate Hv. Qed.

(** The call raises no exception outside the first [except] clause. *)
Lemma transform_expected v f e :
  transform_outcome v f = Raise e -> expected e = true.
Proof.
  unfold transform_outcome. intros H.
  destruct (Z.ltb_spec f 0) as [Hf|Hf].
  - rewrite transform_negative in H by done. by injection H as <-.
  - destruct (supported v) eqn:Hs.
    + destruct v; try discriminate Hs.
      * rewrite transform_int in H by done. discriminate H.
      * rewrite transform_int in H by done. discriminate H.
      * rewrite transform_float in H by done.
        destruct (Float.of_int f); [discriminate H|]. by injection H as <-.
      * rewrite transform_str in H by done. discriminate H.
    + rewrite transform_unsupported in H by done. by injection H as <-.
Qed.

Lemma safe_when_str_raises v f st e :
  str_outcome float_str v = Raise e ->
  safe_example_function float_str v f st = (Raise e, st).
Proof.
  intros H. unfold safe_example_function, bind.
  by rewrite py_str_run, H.
Qed.

Lemma safe_when_transform_returns v f st s w :
  str_outcome float_str v = Ok s ->
  transform_outcome v f = Ok w ->
  safe_example_function float_str v f st =
    (Ok (update_success (initial_info v f s) w), add_log st (transform_log v f)).
Proof.
  intros Hs Hw. unfold safe_example_function, bind at 1.
  rewrite py_str_run, Hs. unfold try_call, try_except, bind.
  by rewrite transform_run, Hw.
Qed.

Lemma safe_when_transform_raises v f st s e :
  str_outcome float_str v = Ok s ->
  transform_outcome v f = Raise e ->
  safe_example_function float_str v f st =
    (Ok (set_error (initial_info v f s) (exn_name e) (exn_msg e)),
     add_log st (transform_log v f)).
Proof.
  intros Hs He. unfold safe_example_function, bind at 1.
  rewrite py_str_run, Hs. unfold try_call, try_except, bind.
  rewrite transform_run, He.
  pose proof (transform_expected v f e He) as Hx. unfold expected in Hx.
  destruct (exn_cls e); try reflexivity. discriminate Hx.
Qed.

End SafeProperties.

(** ** List objects and loops *)

Lemma list_new_run l st :
  ∃ r st', list_new l st = (Ok r, st') ∧ (r ∉ dom (heap st)) ∧
           heap st' = <[r := l]> (heap st) ∧ log st' = log st.
Proof.
  eexists _, _. split; [reflexivity|]. split; [apply is_fresh|done].
Qed.

Lemma list_len_run r l st :
  heap st !! r = Some l -> list_len r st = (Ok (pylist_len l), st).
Proof. intros H. unfold list_len. by rewrite H. Qed.

Lemma values_getitem_run r xs i v st :
  heap st !! r = Some (LValues xs) -> xs !! i = Some v ->
  values_getitem r i st = (Ok v, st).
Proof. intros H Hi. unfold values_getitem. by rewrite H, Hi. Qed.

Lemma indexed_getitem_run r ps k p st :
  heap st !! r = Some (LIndexed ps) -> ps !! k = Some p ->
  indexed_getitem r k st = (Ok p, st).
Proof. intros H Hk. unfold indexed_getitem. by rewrite H, Hk. Qed.

Lemma indexed_append_run r ps p st :
  heap st !! r = Some (LIndexed ps) ->
  indexed_append r p st =
    (Ok tt, {| heap := <[r := LIndexed (ps ++ [p])]> (heap st); log := log st |}).
Proof. intros H. unfold indexed_append. by rewrite H. Qed.

Lemma results_setitem_run r rs i x st :
  heap st !! r = Some (LResults rs) -> i < length rs ->
  results_setitem r i x st =
    (Ok tt, {| heap := <[r := LResults (<[i := Some x]> rs)]> (heap st);
               log := log st |}).
Proof.
  intros H Hi. unfold results_setitem. rewrite H.
  by destruct (decide (i < length rs)).
Qed.

(** The first loop of [batch_process_values]: from the element of index
    [length pre] on, each element is appended, with its index, to the list
    of its group; nothing else changes. *)
Lemma classify_loop lv ln ls lo :
  lv <> ln -> lv <> ls -> lv <> lo -> ln <> ls -> ln <> lo -> ls <> lo ->
  ∀ rest pre a b c st,
    heap st !! lv = Some (LValues (pre ++ rest)) ->
    heap st !! ln = Some (LIndexed a) ->
    heap st !! ls = Some (LIndexed b) ->
    heap st !! lo = Some (LIndexed c) ->
    ∃ st',
      for_range (length rest) (length pre)
        (fun i =>
           let! value := values_getitem lv i in
           if isinstance_int value || isinstance_float value then
             indexed_append ln (i, value)
           else if isinstance_str value then
             indexed_append ls (i, value)
           else
             indexed_append lo (i, value)) st = (Ok tt, st') ∧
      heap st' !! ln = Some (LIndexed (a ++ group_of is_numeric (length pre) rest)) ∧
      heap st' !! ls = Some (LIndexed (b ++ group_of isinstance_str (length pre) rest)) ∧
      heap st' !! lo = Some (LIndexed (c ++ group_of is_other (length pre) rest)) ∧
      (∀ l, l <> ln -> l <> ls -> l <> lo -> heap st' !! l = heap st !! l) ∧
      log st' = log st.
Proof.
  intros Hvn Hvs Hvo Hns Hno Hso.
  induction rest as [|v rest IH]; intros pre a b c st Hv Hn Hs Ho.
  - exists st. cbn [for_range group_of length]. rewrite !app_nil_r. by unfold ret.
  - cbn [length for_range]. unfold bind at 1 2.
    rewrite (values_getitem_run lv (pre ++ v :: rest) (length pre) v st Hv)
      by (by rewrite list_lookup_middle).
    assert (Hv' : ∀ h : gmap loc pylist, h !! lv = heap st !! lv ->
              h !! lv = Some (LValues ((pre ++ [v]) ++ rest)))
      by (intros h ->; by rewrite <- app_assoc).
    assert (Hlen : S (length pre) = length (pre ++ [v]))
      by (rewrite length_app; cbn; lia).
    cbn [group_of].
    assert (Eo : is_other v = negb (is_numeric v) && negb (isinstance_str v))
      by reflexivity.
    change (isinstance_int v || isinstance_float v) with (is_numeric v).
    destruct (is_numeric v) eqn:Enum; cbn [negb andb] in Eo; rewrite Eo.
    + assert (isinstance_str v = false) as -> by (by destruct v).
      rewrite (indexed_append_run ln a _ st Hn).
      set (st1 := {| heap := _; log := _ |}).
      destruct (IH (pre ++ [v]) (a ++ [(length pre, v)]) b c st1)
        as (st' & Hrun & Hn' & Hs' & Ho' & Hfr & Hlog).
      * apply Hv'. cbn. by rewrite lookup_insert_ne.
      * cbn. by rewrite lookup_insert_eq.
      * cbn. by rewrite lookup_insert_ne.
      * cbn. by rewrite lookup_insert_ne.
      * exists st'. rewrite Hlen, Hrun, Hn', Hs', Ho', <- Hlen, <- app_assoc.
        split_and!; try done.
        intros l H1 H2 H3. rewrite Hfr by done. cbn. by rewrite lookup_insert_ne.
    + destruct (isinstance_str v) eqn:Estr; cbn [negb].
      * rewrite (indexed_append_run ls b _ st Hs).
        set (st1 := {| heap := _; log := _ |}).
        destruct (IH (pre ++ [v]) a (b ++ [(length pre, v)]) c st1)
          as (st' & Hrun & Hn' & Hs' & Ho' & Hfr & Hlog).
        -- apply Hv'. cbn. by rewrite lookup_insert_ne.
        -- cbn. by rewrite lookup_insert_ne.
        -- cbn. by rewrite lookup_insert_eq.
        -- cbn. by rewrite lookup_insert_ne.
        -- exists st'. rewrite Hlen, Hrun, Hn', Hs', Ho', <- Hlen, <- app_assoc.
           split_and!; try done.
           intros l H1 H2 H3. rewrite Hfr by done. cbn. by rewrite lookup_insert_ne.
      * rewrite (indexed_append_run lo c _ st Ho).
        set (st1 := {| heap := _; log := _ |}).
        destruct (IH (pre ++ [v]) a b (c ++ [(length pre, v)]) st1)
          as (st' & Hrun & Hn' & Hs' & Ho' & Hfr & Hlog).
        -- apply Hv'. cbn. by rewrite lookup_insert_ne.
        -- cbn. by rewrite lookup_insert_ne.
        -- cbn. by rewrite lookup_insert_ne.
        -- cbn. by rewrite lookup_insert_eq.
        -- exists st'. rewrite Hlen, Hrun, Hn', Hs', Ho', <- Hlen, <- app_assoc.
           split_and!; try done.
           intros l H1 H2 H3. rewrite Hfr by done. cbn. by rewrite lookup_insert_ne.
Qed.

(** ** Groups and their writes *)

Lemma group_of_elem P xs : ∀ i0 j v,
  xs !! j = Some v -> P v = true -> (i0 + j, v) ∈ group_of P i0 xs.
Proof.
  induction xs as [|x xs IH]; intros i0 j v Hj HP; [done|].
  cbn [group_of]. destruct j as [|j]; cbn in Hj.
  - injection Hj as ->. rewrite HP, Nat.add_0_r. left.
  - replace (i0 + S j) with (S i0 + j) by lia.
    destruct (P x); [right|]; by apply IH.
Qed.

Lemma group_of_inv P xs : ∀ i0 i v,
  (i, v) ∈ group_of P i0 xs -> ∃ j, i = i0 + j ∧ xs !! j = Some v ∧ P v = true.
Proof.
  induction xs as [|x xs IH]; intros i0 i v Hin; cbn [group_of] in Hin.
  - by apply elem_of_nil in Hin.
  - assert ((i, v) ∈ group_of P (S i0) xs ->
            ∃ j, i = i0 + j ∧ (x :: xs) !! j = Some v ∧ P v = true) as Htail.
    { intros H. destruct (IH _ _ _ H) as (j & -> & Hj & HP).
      exists (S j). split_and!; [lia|done|done]. }
    destruct (P x) eqn:HP; [|by apply Htail].
    apply elem_of_cons in Hin as [Heq|Hin]; [|by apply Htail].
    injection Heq as -> ->. exists 0. split_and!; [lia|done|done].
Qed.

Lemma group_of_consistent P xs : consistent xs (group_of P 0 xs).
Proof. intros i v Hin. by destruct (group_of_inv _ _ _ _ _ Hin) as (j & -> & Hj & _). Qed.

Lemma write_group_length g ps : ∀ rs, length (write_group g ps rs) = length rs.
Proof.
  induction ps as [|p ps IH]; intros rs; cbn [write_group]; [done|].
  destruct (g (snd p)); [|done]. by rewrite IH, length_insert.
Qed.

(** A result in place stays in place: a later write at the same index
    stores the result of the same element. *)
Lemma write_group_keeps g xs ps j v r :
  consistent xs ps -> xs !! j = Some v -> g v = Ok r ->
  ∀ rs, rs !! j = Some (Some r) -> write_group g ps rs !! j = Some (Some r).
Proof.
  intros Hc Hj Hg. induction ps as [|[i w] ps IH]; intros rs Hrs;
    cbn [write_group fst snd]; [done|].
  destruct (g w) as [r'|e] eqn:Hw; [|done].
  apply IH.
  - intros i' v' Hin. apply Hc. by right.
  - destruct (decide (i = j)) as [->|Hne].
    + assert (xs !! j = Some w) as Hw' by (apply Hc; left).
      rewrite Hj in Hw'. injection Hw' as <-. rewrite Hg in Hw. injection Hw as <-.
      apply list_lookup_insert_eq. by eapply lookup_lt_Some.
    + by rewrite list_lookup_insert_ne.
Qed.

(** A loop that does not raise stores the result of each of its tuples. *)
Lemma write_group_writes g xs ps j v r :
  consistent xs ps -> g v = Ok r ->
  group_outcome g ps = Ok tt -> (j, v) ∈ ps ->
  ∀ rs, j < length rs -> write_group g ps rs !! j = Some (Some r).
Proof.
  intros Hc Hg. induction ps as [|[i w] ps IH]; intros Hout Hin rs Hlt;
    cbn [write_group group_outcome fst snd] in *.
  - by apply elem_of_nil in Hin.
  - assert (consistent xs ps) as Hc' by (intros i' v' H; apply Hc; by right).
    destruct (g w) as [r'|e] eqn:Hw; [|discriminate Hout].
    apply elem_of_cons in Hin as [Heq|Hin].
    + injection Heq as <- <-. rewrite Hg in Hw. injection Hw as <-.
      apply (write_group_keeps g xs ps j v r); try done.
      * apply Hc. left.
      * by apply list_lookup_insert_eq.
    + apply IH; try done. by rewrite length_insert.
Qed.

Lemma map_outcome_ok {A B} (g : A -> outcome B) xs : ∀ rs,
  map_outcome g xs = Ok rs ->
  length rs = length xs ∧
  ∀ j v, xs !! j = Some v -> ∃ r, g v = Ok r ∧ rs !! j = Some r.
Proof.
  induction xs as [|x xs IH]; intros rs H; cbn [map_outcome] in H.
  - injection H as <-. split; [done|]. intros j v Hj. by destruct j.
  - destruct (g x) as [r|e] eqn:Hx; [|discriminate H].
    destruct (map_outcome g xs) as [rs'|e]; [|discriminate H].
    injection H as <-. destruct (IH rs' eq_refl) as [Hlen Hall].
    split; [cbn; by rewrite Hlen|].
    intros [|j] v Hj; cbn in Hj.
    + injection Hj as <-. by exists r.
    + by apply Hall.
Qed.

(** Conversely: when the call returns on every element, the naive map
    returns. *)
Lemma map_outcome_total {A B} (g : A -> outcome B) xs :
  (∀ v, v ∈ xs -> ∃ r, g v = Ok r) -> ∃ rs, map_outcome g xs = Ok rs.
Proof.
  induction xs as [|x xs IH]; intros H; cbn [map_outcome]; [by eexists|].
  destruct (H x) as [r ->]; [left|].
  destruct IH as [rs ->]; [|by eexists].
  intros v Hv. apply H. by right.
Qed.

Lemma group_outcome_class g P xs : ∀ i,
  (∀ v, v ∈ xs -> P v = true -> ∃ r, g v = Ok r) ->
  group_outcome g (group_of P i xs) = Ok tt.
Proof.
  induction xs as [|x xs IH]; intros i H; cbn [group_of]; [done|].
  assert (group_outcome g (group_of P (S i) xs) = Ok tt) as Htail
    by (apply IH; intros v Hv; apply H; by right).
  destruct (P x) eqn:HP; [|done].
  cbn [group_outcome snd]. destruct (H x) as [r ->]; [left|done|done].
Qed.

(** The loop over the third group raises what the naive map raises, when
    the call returns on every element of the other two groups. *)
Lemma group_outcome_other g xs e : ∀ i,
  (∀ v, is_other v = false -> ∃ r, g v = Ok r) ->
  map_outcome g xs = Raise e ->
  group_outcome g (group_of is_other i xs) = Raise e.
Proof.
  induction xs as [|x xs IH]; intros i Hok H; cbn [map_outcome group_of] in *;
    [discriminate H|].
  destruct (g x) as [r|e'] eqn:Hx.
  - destruct (map_outcome g xs) as [rs|e'']; [discriminate H|].
    injection H as ->.
    destruct (is_other x); cbn [group_outcome snd]; rewrite ?Hx; by apply IH.
  - injection H as ->. destruct (is_other x) eqn:Ho.
    + cbn [group_outcome snd]. by rewrite Hx.
    + destruct (Hok x Ho) as [r Hr]. congruence.
Qed.

(** The output list after the three loops, when no call raises: every
    index holds the result of its element. *)
Lemma write_groups_all g xs rs :
  map_outcome g xs = Ok rs ->
  write_group g (group_of is_other 0 xs)
    (write_group g (group_of isinstance_str 0 xs)
       (write_group g (group_of is_numeric 0 xs)
          (replicate (length xs) None)))
  = Some <$> rs.
Proof.
  intros H. destruct (map_outcome_ok g xs rs H) as [Hlen Hall].
  assert (Hgo : ∀ P, group_outcome g (group_of P 0 xs) = Ok tt).
  { intros P. apply group_outcome_class. intros v Hv _.
    apply list_elem_of_lookup in Hv as [j Hj].
    destruct (Hall j v Hj) as (r & Hr & _). by exists r. }
  apply list_eq. intros j. rewrite list_lookup_fmap.
  destruct (xs !! j) as [v|] eqn:Hj.
  - destruct (Hall j v Hj) as (r & Hr & ->). cbn [fmap option_fmap option_map].
    pose proof (lookup_lt_Some _ _ _ Hj) as Hlt.
    set (r0 := replicate (length xs) None : list (option SafeResult)).
    assert (length r0 = length xs) as Hl0 by apply length_replicate.
    destruct (is_numeric v) eqn:Hn; [|destruct (isinstance_str v) eqn:Hs].
    + apply (write_group_keeps g xs _ j v r); try done; [apply group_of_consistent|].
      apply (write_group_keeps g xs _ j v r); try done; [apply group_of_consistent|].
      apply (write_group_writes g xs _ j v r); try done;
        [apply group_of_consistent| |by rewrite Hl0].
      by apply (group_of_elem is_numeric xs 0 j v).
    + apply (write_group_keeps g xs _ j v r); try done; [apply group_of_consistent|].
      apply (write_group_writes g xs _ j v r); try done;
        [apply group_of_consistent| |by rewrite write_group_length, Hl0].
      by apply (group_of_elem isinstance_str xs 0 j v).
    + apply (write_group_writes g xs _ j v r); try done;
        [apply group_of_consistent| |by rewrite !write_group_length, Hl0].
      apply (group_of_elem is_other xs 0 j v); [done|].
      unfold is_other. by rewrite Hn, Hs.
  - apply lookup_ge_None in Hj.
    rewrite (proj2 (lookup_ge_None rs j)) by lia. cbn.
    apply lookup_ge_None. rewrite !write_group_length, length_replicate. lia.
Qed.

Section BatchProperties.

Variable float_str : Float.float -> string.

(** A loop of [batch_process_values] over a group: the calls run in the
    order of the group and each result is stored at its index, until a call
    raises; only the output list changes. *)
Lemma group_loop lg lr f :
  lg <> lr ->
  ∀ rest pre rs st,
    heap st !! lg = Some (LIndexed (pre ++ rest)) ->
    heap st !! lr = Some (LResults rs) ->
    (∀ p, p ∈ rest -> fst p < length rs) ->
    ∃ st',
      for_range (length rest) (length pre)
        (fun k =>
           let! p := indexed_getitem lg k in
           let! r := safe_example_function float_str (snd p) f in
           results_setitem lr (fst p) r) st
      = (group_outcome (fun v => safe_outcome float_str v f) rest, st') ∧
      heap st' !! lr =
        Some (LResults (write_group (fun v => safe_outcome float_str v f) rest rs)) ∧
      (∀ l, l <> lr -> heap st' !! l = heap st !! l).
Proof.
  intros Hne. induction rest as [|p rest IH]; intros pre rs st Hg Hr Hlt.
  - exists st. by cbn.
  - cbn [length for_range group_outcome write_group]. unfold bind at 1 2 3.
    rewrite (indexed_getitem_run lg (pre ++ p :: rest) (length pre) p st Hg)
      by (by rewrite list_lookup_middle).
    rewrite safe_run.
    destruct (safe_outcome float_str (snd p) f) as [r|e].
    + rewrite (results_setitem_run lr rs (fst p) r
                 (add_log st (safe_log float_str (snd p) f)) Hr)
        by (apply Hlt; left).
      cbn [add_log heap log].
      set (st1 := {| heap := _; log := _ |}).
      destruct (IH (pre ++ [p]) (<[fst p := Some r]> rs) st1)
        as (st' & Hrun & Hr' & Hfr).
      * cbn. rewrite lookup_insert_ne by done. by rewrite <- app_assoc.
      * cbn. by rewrite lookup_insert_eq.
      * intros q Hq. rewrite length_insert. apply Hlt. by right.
      * exists st'. rewrite length_app in Hrun. cbn [length] in Hrun.
        rewrite Nat.add_1_r in Hrun. rewrite Hrun, Hr'.
        split_and!; try done.
        intros l Hl. rewrite Hfr by done. cbn. by rewrite lookup_insert_ne.
    + eexists. split_and!; [reflexivity|done|done].
Qed.

Lemma for_indexed_run lg lr f ps rs st :
  lg <> lr ->
  heap st !! lg = Some (LIndexed ps) ->
  heap st !! lr = Some (LResults rs) ->
  (∀ p, p ∈ ps -> fst p < length rs) ->
  ∃ st',
    for_indexed lg (fun i value =>
        let! r := safe_example_function float_str value f in
        results_setitem lr i r) st
    = (group_outcome (fun v => safe_outcome float_str v f) ps, st') ∧
    heap st' !! lr =
      Some (LResults (write_group (fun v => safe_outcome float_str v f) ps rs)) ∧
    (∀ l, l <> lr -> heap st' !! l = heap st !! l).
Proof.
  intros Hne Hg Hr Hlt. unfold for_indexed, bind at 1.
  rewrite (list_len_run lg _ st Hg). cbn [pylist_len].
  exact (group_loop lg lr f Hne ps [] rs st Hg Hr Hlt).
Qed.

Lemma group_of_bound P xs p : p ∈ group_of P 0 xs -> fst p < length xs.
Proof.
  destruct p as [i v]. intros Hin.
  destruct (group_of_inv _ _ _ _ _ Hin) as (j & -> & Hj & _).
  cbn. by eapply lookup_lt_Some.
Qed.

(** The wrapper returns on every [int], [float] and [str]. *)
Lemma safe_returns_supported v f :
  is_other v = false -> ∃ r, safe_outcome float_str v f = Ok r.
Proof.
  intros Hv.
  destruct (str_outcome_supported float_str v) as [s Hs].
  { unfold is_other, is_numeric in Hv. unfold supported.
    destruct (isinstance_int v || isinstance_float v); [done|].
    by destruct (isinstance_str v). }
  unfold safe_outcome.
  destruct (transform_outcome v f) as [w|e] eqn:Hw.
  - rewrite (safe_when_transform_returns float_str v f st_empty s w Hs Hw).
    by eexists.
  - rewrite (safe_when_transform_raises float_str v f st_empty s e Hs Hw).
    by eexists.
Qed.


(** [batch_process_values] on a list: what it returns or raises, where the
    output is, and what it leaves alone. *)
Lemma batch_run lv xs f st :
  heap st !! lv = Some (LValues xs) ->
  ∃ o st',
    batch_process_values float_str (ARef lv) f st = (o, st') ∧
    preserves st st' ∧
    match map_outcome (fun v => safe_outcome float_str v f) xs with
    | Ok rs =>
        ∃ lr, o = Ok lr ∧ (lr ∉ dom (heap st)) ∧
              heap st' !! lr = Some (LResults (Some <$> rs))
    | Raise e => o = Raise e
    end.
Proof.
  intros Hv. unfold batch_process_values.
  destruct (list_new_run (LResults []) st) as (l0 & st0 & E0 & F0 & H0 & _).
  unfold bind at 1. rewrite E0.
  destruct (list_new_run (LIndexed []) st0) as (ln & st1 & E1 & F1 & H1 & _).
  unfold bind at 1. rewrite E1.
  destruct (list_new_run (LIndexed []) st1) as (ls & st2 & E2 & F2 & H2 & _).
  unfold bind at 1. rewrite E2.
  destruct (list_new_run (LIndexed []) st2) as (lo & st3 & E3 & F3 & H3 & _).
  unfold bind at 1. rewrite E3.
  clear E0 E1 E2 E3.
  assert (Hdv : lv ∈ dom (heap st)) by (apply elem_of_dom; by eexists).
  rewrite H2, dom_insert_L, H1, dom_insert_L, H0, dom_insert_L in F3.
  rewrite H1, dom_insert_L, H0, dom_insert_L in F2.
  rewrite H0, dom_insert_L in F1.
  assert (Hvn : lv <> ln) by set_solver. assert (Hvs : lv <> ls) by set_solver.
  assert (Hvo : lv <> lo) by set_solver. assert (Hns : ln <> ls) by set_solver.
  assert (Hno : ln <> lo) by set_solver. assert (Hso : ls <> lo) by set_solver.
  assert (Hold3 : ∀ l, l ∈ dom (heap st) -> heap st3 !! l = heap st !! l).
  { intros l Hl. rewrite H3, H2, H1, H0.
    rewrite !lookup_insert_ne; [done|set_solver..]. }
  destruct (classify_loop lv ln ls lo Hvn Hvs Hvo Hns Hno Hso xs [] [] [] [] st3)
    as (st4 & Hrun & Hn4 & Hs4 & Ho4 & Hfr4 & _).
  { by rewrite Hold3. }
  { rewrite H3, H2, H1. rewrite !lookup_insert_ne by done. by rewrite lookup_insert_eq. }
  { rewrite H3, H2. rewrite !lookup_insert_ne by done. by rewrite lookup_insert_eq. }
  { rewrite H3. by rewrite lookup_insert_eq. }
  cbn [length app] in Hrun, Hn4, Hs4, Ho4.
  assert (Hv3 : heap st3 !! lv = Some (LValues xs)) by (by rewrite Hold3).
  unfold bind at 1. unfold for_enumerate, bind at 1.
  rewrite (list_len_run lv _ st3 Hv3). cbn [pylist_len]. rewrite Hrun.
  assert (Hv4 : heap st4 !! lv = Some (LValues xs)) by (by rewrite Hfr4).
  unfold bind at 1. rewrite (list_len_run lv _ st4 Hv4). cbn [pylist_len].
  destruct (list_new_run (LResults (replicate (length xs) None)) st4)
    as (lr & st5 & E5 & F5 & H5 & _).
  unfold bind at 1. rewrite E5. clear E5 Hrun.
  assert (Hin4 : ∀ l x, heap st4 !! l = Some x -> l <> lr).
  { intros l x Hl ->. apply F5, elem_of_dom. by eexists. }
  assert (ln <> lr) as Hnr by eauto. assert (ls <> lr) as Hsr by eauto.
  assert (lo <> lr) as Hor by eauto.
  assert (Hold4 : ∀ l, l ∈ dom (heap st) -> heap st4 !! l = heap st !! l).
  { intros l Hl. rewrite Hfr4 by set_solver. by apply Hold3. }
  assert (Hnew : lr ∉ dom (heap st)).
  { intros Hl. pose proof (Hold4 lr Hl) as Heq.
    apply elem_of_dom in Hl as [x Hx]. rewrite Hx in Heq. by eapply Hin4. }
  set (g := fun v => safe_outcome float_str v f).
  set (r0 := replicate (length xs) None : list (option SafeResult)) in *.
  assert (Hl0 : length r0 = length xs) by apply length_replicate.
  (* the loop over the numbers *)
  destruct (for_indexed_run ln lr f (group_of is_numeric 0 xs) r0 st5)
    as (st6 & Hrun6 & Hr6 & Hfr6); [done| | | |].
  { rewrite H5, lookup_insert_ne by done. exact Hn4. }
  { rewrite H5. by rewrite lookup_insert_eq. }
  { intros p Hp. rewrite Hl0. by eapply group_of_bound. }
  unfold bind at 1. rewrite Hrun6. fold g.
  rewrite (group_outcome_class g is_numeric xs 0); last first.
  { intros v _ Hn. apply safe_returns_supported. unfold is_other. by rewrite Hn. }
  (* the loop over the strings *)
  destruct (for_indexed_run ls lr f (group_of isinstance_str 0 xs)
              (write_group g (group_of is_numeric 0 xs) r0) st6)
    as (st7 & Hrun7 & Hr7 & Hfr7); [done| | | |].
  { rewrite Hfr6, H5, lookup_insert_ne by done. exact Hs4. }
  { exact Hr6. }
  { intros p Hp. rewrite write_group_length, Hl0. by eapply group_of_bound. }
  unfold bind at 1. rewrite Hrun7. fold g.
  rewrite (group_outcome_class g isinstance_str xs 0); last first.
  { intros v _ Hs. apply safe_returns_supported. unfold is_other. rewrite Hs.
    by destruct (is_numeric v). }
  (* the loop over the other values *)
  destruct (for_indexed_run lo lr f (group_of is_other 0 xs)
              (write_group g (group_of isinstance_str 0 xs)
                 (write_group g (group_of is_numeric 0 xs) r0)) st7)
    as (st8 & Hrun8 & Hr8 & Hfr8); [done| | | |].
  { rewrite Hfr7, Hfr6, H5, lookup_insert_ne by done. exact Ho4. }
  { exact Hr7. }
  { intros p Hp. rewrite !write_group_length, Hl0. by eapply group_of_bound. }
  unfold bind at 1. rewrite Hrun8. fold g in Hr8 |- *.
  assert (Hpres : preserves st st8).
  { intros l Hl. assert (l <> lr) by (by intros ->).
    rewrite Hfr8, Hfr7, Hfr6, H5, lookup_insert_ne by done. by apply Hold4. }
  destruct (map_outcome g xs) as [rs|e] eqn:Hmap.
  - rewrite (group_outcome_class g is_other xs 0); last first.
    { intros v Hin _. apply list_elem_of_lookup in Hin as [j Hj].
      destruct (map_outcome_ok g xs rs Hmap) as [_ Hall].
      destruct (Hall j v Hj) as (r & Hr & _). by exists r. }
    eexists _, _. split; [reflexivity|]. split; [done|].
    exists lr. split_and!; [done|done|].
    rewrite Hr8. do 2 f_equal. by apply write_groups_all.
  - rewrite (group_outcome_other g xs e 0);
      [|intros v; apply safe_returns_supported|done].
    eexists _, _. split; [reflexivity|]. by split.
Qed.

End BatchProperties.

(** * The claims *)

(** ** The concrete cases of the specification *)

Example transform_5_2 :
  optimized_example_function (VInt 5) 2 st_empty = (Ok (VInt 10), st_empty).
Proof. reflexivity. Qed.

Example transform_Hello_3 :
  optimized_example_function (VStr "Hello") 3 st_empty
  = (Ok (VStr "HelloHelloHello"), st_empty).
Proof. reflexivity. Qed.

Example transform_3_5_4 :
  optimized_example_function (VFloat three_and_half) 4 st_empty
  = (Ok (VFloat (Float.of_scaled 14 0)), st_empty).
Proof. vm_compute. reflexivity. Qed.

(** The largest [int] that converts to a double, and the next one. *)
Example float_of_int_limit :
  Float.of_int (2 ^ 1024 - 2 ^ 970 - 1)
  = Some (S754_finite false (2 ^ 53 - 1) 971) ∧
  Float.of_int (2 ^ 1024 - 2 ^ 970) = None.
Proof. split; vm_compute; reflexivity. Qed.

Example transform_10_minus_1 :
  optimized_example_function (VInt 10) (-1) st_empty
  = (Raise (Exn ValueError "Multiplier must be non-negative"), st_empty).
Proof. reflexivity. Qed.

Example safe_list_2 :
  let v := VOther (PyObject "list" "<class 'list'>" (Ok "[1, 2, 3]")) in
  ∃ r, safe_outcome sample_float_str v 2 = Ok r ∧ success r = false ∧
       error_type <$> error r = Some "TypeError".
Proof. eexists. split; [reflexivity|]. by split. Qed.

Example batch_demo :
  ∃ lr rs,
    fst (batch_process_values sample_float_str (ARef 1%positive) 3 demo_state) = Ok lr ∧
    heap (snd (batch_process_values sample_float_str (ARef 1%positive) 3 demo_state)) !! lr
      = Some (LResults (Some <$> rs)) ∧
    result <$> rs =
      [VInt 3; VFloat (Float.of_scaled 15 (-1)); VStr "testtesttest";
       VInt 126; VStr "hellohellohello"] ∧
    success <$> rs = [true; true; true; true; true].
Proof.
  eexists _, [_; _; _; _; _]. split; [vm_compute; reflexivity|].
  split; [vm_compute; reflexivity|]. split; vm_compute; reflexivity.
Qed.

(** ** The transformer *)








(** ** The safe wrapper *)


(** The record a returning call of the wrapper builds. *)
Lemma safe_returned float_str v f st r st' :
  safe_example_function float_str v f st = (Ok r, st') ->
  ∃ s, str_outcome float_str v = Ok s ∧
       match transform_outcome v f with
       | Ok w => r = update_success (initial_info v f s) w
       | Raise e => r = set_error (initial_info v f s) (exn_name e) (exn_msg e)
       end.
Proof.
  intros H. destruct (str_outcome float_str v) as [s|e] eqn:Hs.
  - exists s. split; [done|].
    destruct (transform_outcome v f) as [w|e] eqn:Hw.
    + rewrite (safe_when_transform_returns float_str v f st s w Hs Hw) in H.
      by injection H as <- _.
    + rewrite (safe_when_transform_raises float_str v f st s e Hs Hw) in H.
      by injection H as <- _.
  - rewrite (safe_when_str_raises float_str v f st e Hs) in H. discriminate H.
Qed.

(** C1, at the failing input: the wrapper builds the text of its argument
    before its [try] statement, so an object whose [__str__] raises makes
    the wrapper raise, for every factor and from every state. *)
Theorem safe_raises_on_bad_object (float_str : Float.float -> string)
    (f : Z) (st : state) :
  safe_example_function float_str bad_object f st
  = (Raise (Exn (OtherException "RuntimeError") "boom"), st).
Proof. by apply safe_when_str_raises. Qed.




(** C8, as the specification states it, fails on an overflow: the failure
    is neither a [ValueError] nor a [TypeError], and the wrapper reports it
    under its own name with its own message. *)
Lemma overflow_is_reported_by_name :
  transform_outcome (VFloat one_and_half) (2 ^ 1024)
  = Raise (Exn OverflowError "int too large to convert to float") ∧
  ∃ r, safe_outcome sample_float_str (VFloat one_and_half) (2 ^ 1024) = Ok r ∧
       error r = Some (ErrorInfo "OverflowError" "int too large to convert to float") ∧
       error r <> Some unexpected_error.
Proof.
  split; [vm_compute; reflexivity|].
  eexists. split; [vm_compute; reflexivity|]. by split.
Qed.

(** C8 (amended): when the call inside the [try] statement raises an
    exception that is none of [TypeError], [ValueError] and
    [OverflowError], the wrapper returns the record with the error
    [UnexpectedError] and the fixed message, and the message of the
    exception goes to the log only; a [TypeError], a [ValueError] or an
    [OverflowError] is reported under its own name with its own message,
    and nothing is logged.  The wrapper is this [try] statement around the
    call of [optimized_example_function]. *)
Theorem unexpected_error_is_generic (float_str : Float.float -> string)
    (call : M pyval) (info : SafeResult) (st : state) (e : exn) (st1 : state) :
  call st = (Raise e, st1) ->
  (expected e = false ->
   try_call call info st
   = (Ok (set_error info "UnexpectedError" "An unexpected error occurred"),
      add_log st1 [LogRecord ERROR
                     ("Unexpected error in safe_example_function: " +:+ exn_msg e)])) ∧
  (expected e = true ->
   try_call call info st = (Ok (set_error info (exn_name e) (exn_msg e)), st1)) ∧
  (∀ v f s, str_outcome float_str v = Ok s ->
            safe_example_function float_str v f st
            = try_call (optimized_example_function v f) (initial_info v f s) st) ∧
  (∀ x f, (0 <= f)%Z -> Float.of_int f = None ->
          safe_example_function float_str (VFloat x) f st
          = (Ok (set_error (initial_info (VFloat x) f (float_str x))
                   "OverflowError" "int too large to convert to float"),
             add_log st [overflow_record])).
Proof.
  intros H. split_and!.
  - intros Hx. unfold try_call, try_except, bind. rewrite H. unfold expected in Hx.
    destruct (exn_cls e); try discriminate Hx. reflexivity.
  - intros Hx. unfold try_call, try_except, bind. rewrite H. unfold expected in Hx.
    destruct (exn_cls e); try discriminate Hx; reflexivity.
  - intros v f s Hs. unfold safe_example_function, bind at 1.
    by rewrite py_str_run, Hs.
  - intros x f Hf Hov.
    assert (Hrun := transform_float x f st_empty Hf). rewrite Hov in Hrun.
    rewrite (safe_when_transform_raises float_str (VFloat x) f st (float_str x)
               (Exn OverflowError "int too large to convert to float"));
      [|reflexivity|unfold transform_outcome; by rewrite Hrun].
    unfold transform_log. by rewrite Hrun.
Qed.

Lemma unexpected_error_is_generic_witness :
  out_of_memory st_empty
  = (Raise (Exn (OtherException "MemoryError") "out of memory"), st_empty) ∧
  try_call out_of_memory (initial_info (VStr "ab") 3 "ab") st_empty
  = (Ok (set_error (initial_info (VStr "ab") 3 "ab")
           "UnexpectedError" "An unexpected error occurred"),
     add_log st_empty
       [LogRecord ERROR "Unexpected error in safe_example_function: out of memory"]).
Proof.
  split; [reflexivity|].
  exact (proj1 (unexpected_error_is_generic sample_float_str out_of_memory
                  (initial_info (VStr "ab") 3 "ab") st_empty _ st_empty eq_refl)
               eq_refl).
Defined.

(** ** The batch *)

(** A value that is not a list is refused. *)
Lemma batch_not_a_list float_str v f st :
  batch_process_values float_str (AVal v) f st
  = (Raise (Exn TypeError "Values must be a list"), st).
Proof. reflexivity. Qed.

(** The batch completes on a list whose elements all have a text. *)
Lemma batch_completes float_str lv xs f st :
  heap st !! lv = Some (LValues xs) ->
  (∀ v, v ∈ xs -> ∃ s, str_outcome float_str v = Ok s) ->
  ∃ lr rs st',
    batch_process_values float_str (ARef lv) f st = (Ok lr, st') ∧
    heap st' !! lr = Some (LResults (Some <$> rs)) ∧ length rs = length xs.
Proof.
  intros Hv Hstr.
  destruct (batch_run float_str lv xs f st Hv) as (o & st' & Hrun & _ & Hout).
  destruct (map_outcome_total (fun v => safe_outcome float_str v f) xs) as [rs Hrs].
  { intros v Hin. destruct (Hstr v Hin) as [s Hs]. unfold safe_outcome.
    destruct (transform_outcome v f) as [w|e] eqn:Hw.
    - rewrite (safe_when_transform_returns float_str v f st_empty s w Hs Hw).
      by eexists.
    - rewrite (safe_when_transform_raises float_str v f st_empty s e Hs Hw).
      by eexists. }
  rewrite Hrs in Hout. destruct Hout as (lr & -> & _ & Hlr).
  exists lr, rs, st'. split_and!; try done.
  by destruct (map_outcome_ok _ xs rs Hrs).
Qed.



(** C9, at the failing input: on a list that holds an object whose
    [__str__] raises, the batch is aborted by the exception of that
    element, although its argument is a list. *)
Theorem batch_aborts_on_bad_object (float_str : Float.float -> string) (f : Z) :
  heap bad_state !! 1%positive = Some (LValues [VInt 1; bad_object]) ∧
  fst (batch_process_values float_str (ARef 1%positive) f bad_state)
  = Raise (Exn (OtherException "RuntimeError") "boom").
Proof.
  split; [reflexivity|].
  destruct (batch_run float_str 1%positive [VInt 1; bad_object] f bad_state eq_refl)
    as (o & st' & Hrun & _ & Hout).
  rewrite Hrun. cbn [fst map_outcome] in *.
  destruct (safe_returns_supported float_str (VInt 1) f eq_refl) as [r Hr].
  rewrite Hr in Hout.
  assert (safe_outcome float_str bad_object f
          = Raise (Exn (OtherException "RuntimeError") "boom")) as Hbad
    by (unfold safe_outcome;
        by rewrite (safe_when_str_raises float_str bad_object f st_empty _ eq_refl)).
  by rewrite Hbad in Hout.
Qed.

(** C10: the batch leaves its input list as it was, and every other list
    object of the caller too, whether it returns or raises; the list it
    returns is a new object, as long as the input. *)
Theorem batch_preserves_input (float_str : Float.float -> string)
    (lv : loc) (xs : list pyval) (f : Z) (st : state) :
  heap st !! lv = Some (LValues xs) ->
  heap (snd (batch_process_values float_str (ARef lv) f st)) !! lv
  = Some (LValues xs) ∧
  preserves st (snd (batch_process_values float_str (ARef lv) f st)) ∧
  ∀ lr, fst (batch_process_values float_str (ARef lv) f st) = Ok lr ->
        (lr ∉ dom (heap st)) ∧ lr <> lv ∧
        ∃ rs, heap (snd (batch_process_values float_str (ARef lv) f st)) !! lr
              = Some (LResults rs) ∧ length rs = length xs.
Proof.
  intros Hv.
  destruct (batch_run float_str lv xs f st Hv) as (o & st' & Hrun & Hpres & Hout).
  rewrite Hrun. cbn [fst snd].
  assert (lv ∈ dom (heap st)) as Hdom by (apply elem_of_dom; by eexists).
  split_and!.
  - by rewrite Hpres.
  - done.
  - intros lr ->.
    destruct (map_outcome _ xs) as [rs|e] eqn:Hrs; [|discriminate Hout].
    destruct Hout as (lr' & [= <-] & Hnew & Hlr).
    split_and!; [done|by intros ->|].
    exists (Some <$> rs). split; [done|].
    rewrite length_fmap. by destruct (map_outcome_ok _ xs rs Hrs).
Qed.

Lemma batch_preserves_input_witness :
  heap demo_state !! 1%positive = Some (LValues demo_values) ∧
  heap (snd (batch_process_values sample_float_str (ARef 1%positive) 3 demo_state))
    !! 1%positive
  = Some (LValues demo_values).
Proof.
  split; [reflexivity|].
  exact (proj1 (batch_preserves_input sample_float_str 1%positive demo_values 3
                  demo_state eq_refl)).
Defined.

(** * Further properties of the module *)

(** ** Text *)




Lemma length_str_prefix n s :
  String.length (str_prefix n s) = Nat.min n (String.length s).
Proof.
  unfold str_prefix. revert s. induction n as [|n IH]; intros [|c s]; cbn; try done.
  by rewrite IH.
Qed.

Lemma str_prefix_is_prefix n s : ∃ rest, s = str_prefix n s +:+ rest.
Proof.
  unfold str_prefix. revert s. induction n as [|n IH]; intros [|c s]; cbn.
  - by exists "".
  - by exists (String c s).
  - by exists "".
  - destruct (IH s) as [rest Hrest]. exists rest.
    change (String c (String.substring 0 n s) +:+ rest)
      with (String c (String.substring 0 n s +:+ rest)).
    by rewrite <- Hrest.
Qed.

(** ** [optimized_example_function], [_process_string_value] *)








(** ** [safe_example_function] *)

(** The record describes the input: the name of its type, the multiplier,
    and the text of the input cut to 100 characters, that is, a prefix of
    [str(input_value)] of length [min(100, len(str(input_value)))]. *)
Theorem safe_type_info (float_str : Float.float -> string)
    (v : pyval) (f : Z) (st : state) (r : SafeResult) (st' : state) :
  safe_example_function float_str v f st = (Ok r, st') ->
  ti_input_type (type_info r) = type_name v ∧
  ti_multiplier (type_info r) = f ∧
  ∃ s rest,
    str_outcome float_str v = Ok s ∧
    s = ti_input_value (type_info r) +:+ rest ∧
    String.length (ti_input_value (type_info r)) = Nat.min 100 (String.length s).
Proof.
  intros H. destruct (safe_returned float_str v f st r st' H) as (s & Hs & Hr).
  assert (type_info r = type_info (initial_info v f s)) as ->
    by (destruct (transform_outcome v f); by subst r).
  cbn. split; [done|]. split; [done|].
  destruct (str_prefix_is_prefix 100 s) as [rest Hrest].
  exists s, rest. split_and!; [done|done|apply length_str_prefix].
Qed.

Lemma safe_type_info_witness :
  ti_input_type (type_info (update_success (initial_info (VInt 5) 2 "5") (VInt 10)))
  = "int" ∧
  ti_multiplier (type_info (update_success (initial_info (VInt 5) 2 "5") (VInt 10)))
  = 2%Z.
Proof.
  pose proof (safe_type_info sample_float_str (VInt 5) 2 st_empty _ _ eq_refl)
    as (H1 & H2 & _).
  split; [exact H1|exact H2].
Defined.






(** ** [batch_process_values] *)

Section BatchLog.

Variable float_str : Float.float -> string.

Lemma group_loop_log lg lr f :
  lg <> lr ->
  ∀ rest pre rs st,
    heap st !! lg = Some (LIndexed (pre ++ rest)) ->
    heap st !! lr = Some (LResults rs) ->
    (∀ p, p ∈ rest -> fst p < length rs) ->
    log (snd (for_range (length rest) (length pre)
                (fun k =>
                   let! p := indexed_getitem lg k in
                   let! r := safe_example_function float_str (snd p) f in
                   results_setitem lr (fst p) r) st))
    = log st ++ group_log (fun v => safe_outcome float_str v f)
                          (fun v => safe_log float_str v f) rest.
Proof.
  intros Hne. induction rest as [|p rest IH]; intros pre rs st Hg Hr Hlt.
  - cbn. by rewrite app_nil_r.
  - cbn [length for_range]. unfold group_log. cbn [fmap list_fmap map_log].
    unfold bind at 1 2 3.
    rewrite (indexed_getitem_run lg (pre ++ p :: rest) (length pre) p st Hg)
      by (by rewrite list_lookup_middle).
    rewrite safe_run.
    destruct (safe_outcome float_str (snd p) f) as [r|e].
    + rewrite (results_setitem_run lr rs (fst p) r
                 (add_log st (safe_log float_str (snd p) f)) Hr)
        by (apply Hlt; left).
      cbn [add_log heap log].
      set (st1 := {| heap := _; log := _ |}).
      pose proof (IH (pre ++ [p]) (<[fst p := Some r]> rs) st1) as Hlog.
      rewrite length_app in Hlog. cbn [length] in Hlog.
      rewrite Nat.add_1_r in Hlog. rewrite Hlog.
      * unfold group_log. cbn. by rewrite app_assoc.
      * cbn. rewrite lookup_insert_ne by done. by rewrite <- app_assoc.
      * cbn. by rewrite lookup_insert_eq.
      * intros q Hq. rewrite length_insert. apply Hlt. by right.
    + cbn. by rewrite app_nil_r.
Qed.

Lemma for_indexed_log lg lr f ps rs st :
  lg <> lr ->
  heap st !! lg = Some (LIndexed ps) ->
  heap st !! lr = Some (LResults rs) ->
  (∀ p, p ∈ ps -> fst p < length rs) ->
  log (snd (for_indexed lg (fun i value =>
              let! r := safe_example_function float_str value f in
              results_setitem lr i r) st))
  = log st ++ group_log (fun v => safe_outcome float_str v f)
                        (fun v => safe_log float_str v f) ps.
Proof.
  intros Hne Hg Hr Hlt. unfold for_indexed, bind at 1.
  rewrite (list_len_run lg _ st Hg). cbn [pylist_len].
  exact (group_loop_log lg lr f Hne ps [] rs st Hg Hr Hlt).
Qed.

Lemma map_safe_log xs f : ∀ st,
  log (snd (map_safe float_str xs f st))
  = log st ++ map_log (fun v => safe_outcome float_str v f)
                      (fun v => safe_log float_str v f) xs.
Proof.
  induction xs as [|x xs IH]; intros st; cbn [map_safe map_log].
  - cbn. by rewrite app_nil_r.
  - unfold bind at 1. rewrite safe_run.
    destruct (safe_outcome float_str x f) as [r|e].
    + unfold bind at 1.
      pose proof (IH (add_log st (safe_log float_str x f))) as Hlog.
      destruct (map_safe float_str xs f _) as [[rs|e] st']; cbn in *;
        by rewrite Hlog, app_assoc.
    + cbn. by rewrite app_nil_r.
Qed.

End BatchLog.

Section BatchLogRun.

Variable float_str : Float.float -> string.

(** The log after a batch: the records of the calls on the numbers, then
    those of the calls on the strings, then those of the calls on the
    other values, each group in the order of the list. *)
Lemma batch_log_run lv xs f st :
  heap st !! lv = Some (LValues xs) ->
  log (snd (batch_process_values float_str (ARef lv) f st))
  = log st ++
    group_log (fun v => safe_outcome float_str v f)
              (fun v => safe_log float_str v f) (group_of is_numeric 0 xs) ++
    group_log (fun v => safe_outcome float_str v f)
              (fun v => safe_log float_str v f) (group_of isinstance_str 0 xs) ++
    group_log (fun v => safe_outcome float_str v f)
              (fun v => safe_log float_str v f) (group_of is_other 0 xs).
Proof.
  intros Hv. unfold batch_process_values.
  destruct (list_new_run (LResults []) st) as (l0 & st0 & E0 & F0 & H0 & L0).
  unfold bind at 1. rewrite E0.
  destruct (list_new_run (LIndexed []) st0) as (ln & st1 & E1 & F1 & H1 & L1).
  unfold bind at 1. rewrite E1.
  destruct (list_new_run (LIndexed []) st1) as (ls & st2 & E2 & F2 & H2 & L2).
  unfold bind at 1. rewrite E2.
  destruct (list_new_run (LIndexed []) st2) as (lo & st3 & E3 & F3 & H3 & L3).
  unfold bind at 1. rewrite E3.
  clear E0 E1 E2 E3.
  assert (Hdv : lv ∈ dom (heap st)) by (apply elem_of_dom; by eexists).
  rewrite H2, dom_insert_L, H1, dom_insert_L, H0, dom_insert_L in F3.
  rewrite H1, dom_insert_L, H0, dom_insert_L in F2.
  rewrite H0, dom_insert_L in F1.
  assert (Hvn : lv <> ln) by set_solver. assert (Hvs : lv <> ls) by set_solver.
  assert (Hvo : lv <> lo) by set_solver. assert (Hns : ln <> ls) by set_solver.
  assert (Hno : ln <> lo) by set_solver. assert (Hso : ls <> lo) by set_solver.
  assert (Hold3 : ∀ l, l ∈ dom (heap st) -> heap st3 !! l = heap st !! l).
  { intros l Hl. rewrite H3, H2, H1, H0.
    rewrite !lookup_insert_ne; [done|set_solver..]. }
  destruct (classify_loop lv ln ls lo Hvn Hvs Hvo Hns Hno Hso xs [] [] [] [] st3)
    as (st4 & Hrun & Hn4 & Hs4 & Ho4 & Hfr4 & L4).
  { by rewrite Hold3. }
  { rewrite H3, H2, H1. rewrite !lookup_insert_ne by done. by rewrite lookup_insert_eq. }
  { rewrite H3, H2. rewrite !lookup_insert_ne by done. by rewrite lookup_insert_eq. }
  { rewrite H3. by rewrite lookup_insert_eq. }
  cbn [length app] in Hrun, Hn4, Hs4, Ho4.
  assert (Hv3 : heap st3 !! lv = Some (LValues xs)) by (by rewrite Hold3).
  unfold bind at 1. unfold for_enumerate, bind at 1.
  rewrite (list_len_run lv _ st3 Hv3). cbn [pylist_len]. rewrite Hrun.
  assert (Hv4 : heap st4 !! lv = Some (LValues xs)) by (by rewrite Hfr4).
  unfold bind at 1. rewrite (list_len_run lv _ st4 Hv4). cbn [pylist_len].
  destruct (list_new_run (LResults (replicate (length xs) None)) st4)
    as (lr & st5 & E5 & F5 & H5 & L5).
  unfold bind at 1. rewrite E5. clear E5 Hrun.
  assert (Hin4 : ∀ l x, heap st4 !! l = Some x -> l <> lr).
  { intros l x Hl ->. apply F5, elem_of_dom. by eexists. }
  assert (ln <> lr) as Hnr by eauto. assert (ls <> lr) as Hsr by eauto.
  assert (lo <> lr) as Hor by eauto.
  assert (Hlog5 : log st5 = log st) by congruence.
  set (g := fun v => safe_outcome float_str v f).
  set (lg := fun v => safe_log float_str v f).
  set (r0 := replicate (length xs) None : list (option SafeResult)) in *.
  assert (Hl0 : length r0 = length xs) by apply length_replicate.
  (* the loop over the numbers *)
  assert (Hgn : heap st5 !! ln = Some (LIndexed (group_of is_numeric 0 xs)))
    by (rewrite H5, lookup_insert_ne by done; exact Hn4).
  assert (Hr5 : heap st5 !! lr = Some (LResults r0))
    by (rewrite H5; by rewrite lookup_insert_eq).
  assert (Hbn : ∀ p, p ∈ group_of is_numeric 0 xs -> fst p < length r0)
    by (intros p Hp; rewrite Hl0; by eapply group_of_bound).
  pose proof (for_indexed_log float_str ln lr f _ r0 st5 Hnr Hgn Hr5 Hbn) as Hlog6.
  destruct (for_indexed_run float_str ln lr f _ r0 st5 Hnr Hgn Hr5 Hbn)
    as (st6 & Hrun6 & Hr6 & Hfr6).
  rewrite Hrun6 in Hlog6. cbn [snd] in Hlog6.
  unfold bind at 1. rewrite Hrun6. fold g lg in Hlog6, Hr6 |- *.
  rewrite (group_outcome_class g is_numeric xs 0); last first.
  { intros v _ Hn. apply safe_returns_supported. unfold is_other. by rewrite Hn. }
  (* the loop over the strings *)
  assert (Hgs : heap st6 !! ls = Some (LIndexed (group_of isinstance_str 0 xs)))
    by (rewrite Hfr6, H5, lookup_insert_ne by done; exact Hs4).
  assert (Hbs : ∀ p, p ∈ group_of isinstance_str 0 xs ->
                     fst p < length (write_group g (group_of is_numeric 0 xs) r0))
    by (intros p Hp; rewrite write_group_length, Hl0; by eapply group_of_bound).
  pose proof (for_indexed_log float_str ls lr f _ _ st6 Hsr Hgs Hr6 Hbs) as Hlog7.
  destruct (for_indexed_run float_str ls lr f _ _ st6 Hsr Hgs Hr6 Hbs)
    as (st7 & Hrun7 & Hr7 & Hfr7).
  rewrite Hrun7 in Hlog7. cbn [snd] in Hlog7.
  unfold bind at 1. rewrite Hrun7. fold g lg in Hlog7, Hr7 |- *.
  rewrite (group_outcome_class g isinstance_str xs 0); last first.
  { intros v _ Hs. apply safe_returns_supported. unfold is_other. rewrite Hs.
    by destruct (is_numeric v). }
  (* the loop over the other values *)
  assert (Hgo : heap st7 !! lo = Some (LIndexed (group_of is_other 0 xs)))
    by (rewrite Hfr7, Hfr6, H5, lookup_insert_ne by done; exact Ho4).
  assert (Hbo : ∀ p, p ∈ group_of is_other 0 xs ->
                     fst p < length (write_group g (group_of isinstance_str 0 xs)
                                       (write_group g (group_of is_numeric 0 xs) r0)))
    by (intros p Hp; rewrite !write_group_length, Hl0; by eapply group_of_bound).
  pose proof (for_indexed_log float_str lo lr f _ _ st7 Hor Hgo Hr7 Hbo) as Hlog8.
  destruct (for_indexed_run float_str lo lr f _ _ st7 Hor Hgo Hr7 Hbo)
    as (st8 & Hrun8 & Hr8 & Hfr8).
  rewrite Hrun8 in Hlog8. cbn [snd] in Hlog8.
  unfold bind at 1. rewrite Hrun8. fold g lg in Hlog8 |- *.
  assert (log st8 = log st ++ group_log g lg (group_of is_numeric 0 xs) ++
                    group_log g lg (group_of isinstance_str 0 xs) ++
                    group_log g lg (group_of is_other 0 xs)) as Hfinal.
  { rewrite Hlog8, Hlog7, Hlog6, Hlog5. by rewrite <- !app_assoc. }
  by destruct (group_outcome g (group_of is_other 0 xs)).
Qed.

End BatchLogRun.

Lemma map_log_returns g l xs :
  (∀ v, v ∈ xs -> ∃ r, g v = Ok r) -> map_log g l xs = concat (l <$> xs).
Proof.
  induction xs as [|x xs IH]; intros H; cbn; [done|].
  destruct (H x) as [r ->]; [left|].
  rewrite IH; [done|]. intros v Hv. apply H. by right.
Qed.






(** The order does change: on [["a", 10**15 + 1]] with the multiplier
    [10**6 + 1] the naive batch logs the warning of the string before the
    warning of the number, and the batch logs them the other way round. *)
Example batch_log_swaps :
  let f := (10 ^ 6 + 1)%Z in
  let xs := [VStr "a"; VInt (10 ^ 15 + 1)] in
  let st := {| heap := {[ 1%positive := LValues xs ]}; log := [] |} in
  lr_level <$> log (snd (map_safe sample_float_str xs f st)) = [WARNING; WARNING] ∧
  log (snd (batch_process_values sample_float_str (ARef 1%positive) f st))
  = reverse (log (snd (map_safe sample_float_str xs f st))) ∧
  log (snd (batch_process_values sample_float_str (ARef 1%positive) f st))
  <> log (snd (map_safe sample_float_str xs f st)).
Proof.
  intros f xs st.
  assert (Hstr : safe_log sample_float_str (VStr "a") f = [string_warning f]).
  { unfold safe_log.
    rewrite (safe_when_transform_returns sample_float_str (VStr "a") f st_empty "a"
               (VStr (str_repeat "a" (Z.to_nat f))) eq_refl).
    - unfold transform_log. by rewrite transform_str.
    - unfold transform_outcome. by rewrite transform_str. }
  assert (Hint : safe_log sample_float_str (VInt (10 ^ 15 + 1)) f
                 = [numeric_warning ((10 ^ 15 + 1) * f)]).
  { unfold safe_log.
    rewrite (safe_when_transform_returns sample_float_str (VInt (10 ^ 15 + 1)) f
               st_empty (pretty (10 ^ 15 + 1)%Z) (VInt ((10 ^ 15 + 1) * f)) eq_refl).
    - unfold transform_log. by rewrite transform_int.
    - unfold transform_outcome. by rewrite transform_int. }
  assert (Hos : ∃ r, safe_outcome sample_float_str (VStr "a") f = Ok r)
    by (by apply safe_returns_supported).
  assert (Hoi : ∃ r, safe_outcome sample_float_str (VInt (10 ^ 15 + 1)) f = Ok r)
    by (by apply safe_returns_supported).
  destruct Hos as [rs Hos], Hoi as [ri Hoi].
  rewrite (batch_log_run sample_float_str 1%positive xs f st eq_refl), map_safe_log.
  unfold group_log, xs. cbn [group_of is_numeric is_other isinstance_int
    isinstance_float isinstance_str orb negb andb fmap list_fmap snd map_log].
  rewrite Hstr, Hint, Hos, Hoi. cbn [app log st].
  split_and!; [done|done|].
  by intros [=].
Qed.

(** On the empty list the batch returns a new empty list and logs
    nothing. *)
Theorem batch_empty (float_str : Float.float -> string)
    (lv : loc) (f : Z) (st : state) :
  heap st !! lv = Some (LValues []) ->
  ∃ lr, fst (batch_process_values float_str (ARef lv) f st) = Ok lr ∧
        lr <> lv ∧
        heap (snd (batch_process_values float_str (ARef lv) f st)) !! lr
        = Some (LResults []) ∧
        log (snd (batch_process_values float_str (ARef lv) f st)) = log st.
Proof.
  intros Hv.
  pose proof (batch_log_run float_str lv [] f st Hv) as Hlog.
  destruct (batch_run float_str lv [] f st Hv) as (o & st' & Hrun & _ & Hout).
  rewrite Hrun in *. cbn [fst snd map_outcome] in *.
  destruct Hout as (lr & -> & Hnew & Hlr). exists lr.
  split_and!; [done| |done|by rewrite Hlog, app_nil_r].
  intros ->. apply Hnew, elem_of_dom. by eexists.
Qed.

Lemma batch_empty_witness :
  let st := {| heap := {[ 1%positive := LValues [] ]}; log := [] |} in
  heap st !! 1%positive = Some (LValues []) ∧
  ∃ lr, fst (batch_process_values sample_float_str (ARef 1%positive) 2 st) = Ok lr ∧
        lr <> 1%positive ∧
        heap (snd (batch_process_values sample_float_str (ARef 1%positive) 2 st)) !! lr
        = Some (LResults []) ∧
        log (snd (batch_process_values sample_float_str (ARef 1%positive) 2 st)) = log st.
Proof.
  intros st. split; [reflexivity|].
  exact (batch_empty sample_float_str 1%positive 2 st eq_refl).
Defined.

(** The batch does not check the multiplier itself: with a negative
    multiplier it still returns a list as long as its input, in which
    every record reports the [ValueError] and holds no result (on a list
    whose elements all have a text); nothing is logged. *)
Theorem batch_negative_multiplier (float_str : Float.float -> string)
    (lv : loc) (xs : list pyval) (f : Z) (st : state) :
  heap st !! lv = Some (LValues xs) -> (f < 0)%Z ->
  (∀ v, v ∈ xs -> ∃ s, str_outcome float_str v = Ok s) ->
  ∃ lr rs,
    fst (batch_process_values float_str (ARef lv) f st) = Ok lr ∧
    heap (snd (batch_process_values float_str (ARef lv) f st)) !! lr
    = Some (LResults (Some <$> rs)) ∧
    length rs = length xs ∧
    (∀ r, r ∈ rs ->
          success r = false ∧ result r = VNone ∧
          error r = Some (ErrorInfo "ValueError" "Multiplier must be non-negative")) ∧
    log (snd (batch_process_values float_str (ARef lv) f st)) = log st.
Proof.
  intros Hv Hf Hstr.
  set (g := fun v => safe_outcome float_str v f).
  set (l := fun v => safe_log float_str v f).
  assert (Hcall : ∀ v, v ∈ xs ->
            l v = [] ∧ ∃ r, g v = Ok r ∧ success r = false ∧ result r = VNone ∧
              error r = Some (ErrorInfo "ValueError" "Multiplier must be non-negative")).
  { intros v Hin. destruct (Hstr v Hin) as [s Hs].
    assert (Hneg := transform_negative v f st_empty Hf).
    assert (Hrun := safe_when_transform_raises float_str v f st_empty s
                      (Exn ValueError "Multiplier must be non-negative") Hs).
    unfold transform_outcome, transform_log in Hrun. rewrite Hneg in Hrun.
    specialize (Hrun eq_refl). unfold l, g, safe_log, safe_outcome.
    rewrite Hrun. split; [done|by eexists]. }
  pose proof (batch_log_run float_str lv xs f st Hv) as Hlog.
  destruct (batch_run float_str lv xs f st Hv) as (o & st' & Hrun & _ & Hout).
  rewrite Hrun in *. cbn [fst snd] in *. fold g l in Hlog, Hout.
  destruct (map_outcome_total g xs) as [rs Hrs].
  { intros v Hin. destruct (Hcall v Hin) as (_ & r & Hr & _). by exists r. }
  rewrite Hrs in Hout. destruct Hout as (lr & -> & _ & Hlr).
  destruct (map_outcome_ok g xs rs Hrs) as [Hlen Hall].
  exists lr, rs. split_and!; try done.
  - intros r Hr. apply list_elem_of_lookup in Hr as [i Hi].
    destruct (lookup_lt_is_Some_2 xs i) as [v Hv']; [rewrite <- Hlen; by eapply lookup_lt_Some|].
    destruct (Hall i v Hv') as (r' & Hr' & Hi'). rewrite Hi in Hi'. injection Hi' as <-.
    destruct (Hcall v) as (_ & r'' & Hr'' & Hprops);
      [apply list_elem_of_lookup; by exists i|].
    rewrite Hr' in Hr''. by injection Hr'' as <-.
  - rewrite Hlog.
    assert (Hnil : ∀ P, group_log g l (group_of P 0 xs) = []).
    { intros P. unfold group_log.
      assert (Hin : ∀ v, v ∈ snd <$> group_of P 0 xs -> v ∈ xs).
      { intros v Hin. apply list_elem_of_fmap in Hin as ([i v'] & -> & Hin).
        destruct (group_of_inv _ _ _ _ _ Hin) as (j & _ & Hj & _).
        apply list_elem_of_lookup. by exists j. }
      rewrite map_log_returns.
      - induction (snd <$> group_of P 0 xs) as [|v vs IH]; [done|].
        cbn. rewrite (proj1 (Hcall v (Hin v ltac:(left)))). apply IH.
        intros v' Hv'. apply Hin. by right.
      - intros v Hv'. destruct (Hcall v (Hin v Hv')) as (_ & r & Hr & _).
        by exists r. }
    rewrite !Hnil. by rewrite !app_nil_r.
Qed.

Lemma batch_negative_multiplier_witness :
  heap demo_state !! 1%positive = Some (LValues demo_values) ∧ (-1 < 0)%Z ∧
  ∃ lr rs,
    fst (batch_process_values sample_float_str (ARef 1%positive) (-1) demo_state)
    = Ok lr ∧
    heap (snd (batch_process_values sample_float_str (ARef 1%positive) (-1)
                 demo_state)) !! lr
    = Some (LResults (Some <$> rs)) ∧
    length rs = length demo_values ∧
    (∀ r, r ∈ rs ->
          success r = false ∧ result r = VNone ∧
          error r = Some (ErrorInfo "ValueError" "Multiplier must be non-negative")) ∧
    log (snd (batch_process_values sample_float_str (ARef 1%positive) (-1)
                demo_state)) = log demo_state.
Proof.
  split; [reflexivity|]. split; [lia|].
  apply (batch_negative_multiplier sample_float_str 1%positive demo_values (-1)
           demo_state eq_refl ltac:(lia)).
  intros v Hv. apply str_outcome_builtin. intros o ->.
  unfold demo_values in Hv.
  repeat (apply elem_of_cons in Hv as [Hv|Hv]; [discriminate Hv|]).
  by apply elem_of_nil in Hv.
Defined.

(** A second batch on the same list returns the same records in another
    new list, and leaves the list the first batch returned as it is. *)
Theorem batch_twice (float_str : Float.float -> string)
    (lv lr1 : loc) (xs : list pyval) (f : Z) (st : state) :
  heap st !! lv = Some (LValues xs) ->
  fst (batch_process_values float_str (ARef lv) f st) = Ok lr1 ->
  let st1 := snd (batch_process_values float_str (ARef lv) f st) in
  ∃ lr2,
    fst (batch_process_values float_str (ARef lv) f st1) = Ok lr2 ∧
    lr2 <> lr1 ∧
    heap (snd (batch_process_values float_str (ARef lv) f st1)) !! lr2
    = heap st1 !! lr1 ∧
    heap (snd (batch_process_values float_str (ARef lv) f st1)) !! lr1
    = heap st1 !! lr1.
Proof.
  intros Hv H1 st1. subst st1.
  destruct (batch_run float_str lv xs f st Hv) as (o & st1 & Hrun & Hpres & Hout).
  rewrite Hrun in *. cbn [fst snd] in *. subst o.
  destruct (map_outcome _ xs) as [rs|e] eqn:Hrs; [|discriminate Hout].
  destruct Hout as (lr & [= <-] & _ & Hlr1).
  assert (Hv1 : heap st1 !! lv = Some (LValues xs)).
  { rewrite Hpres; [done|]. apply elem_of_dom. by eexists. }
  destruct (batch_run float_str lv xs f st1 Hv1) as (o & st2 & Hrun2 & Hpres2 & Hout2).
  rewrite Hrun2, Hrs in *. cbn [fst snd].
  destruct Hout2 as (lr2 & -> & Hnew & Hlr2).
  assert (lr1 ∈ dom (heap st1)) as Hdom by (apply elem_of_dom; by eexists).
  exists lr2. split_and!; [done|by intros ->|congruence|by apply Hpres2].
Qed.

Lemma batch_twice_witness :
  heap demo_state !! 1%positive = Some (LValues demo_values) ∧
  fst (batch_process_values sample_float_str (ARef 1%positive) 3 demo_state)
  = Ok 6%positive ∧
  let st1 := snd (batch_process_values sample_float_str (ARef 1%positive) 3 demo_state) in
  ∃ lr2,
    fst (batch_process_values sample_float_str (ARef 1%positive) 3 st1) = Ok lr2 ∧
    lr2 <> 6%positive ∧
    heap (snd (batch_process_values sample_float_str (ARef 1%positive) 3 st1)) !! lr2
    = heap st1 !! 6%positive ∧
    heap (snd (batch_process_values sample_float_str (ARef 1%positive) 3 st1))
      !! 6%positive
    = heap st1 !! 6%positive.
Proof.
  assert (fst (batch_process_values sample_float_str (ARef 1%positive) 3 demo_state)
          = Ok 6%positive) as H by (vm_compute; reflexivity).
  split; [reflexivity|]. split; [exact H|].
  exact (batch_twice sample_float_str 1%positive 6%positive demo_values 3 demo_state
           eq_refl H).
Defined.

(** ** [original_example_function] *)



(** The original function never raises: when the product raises, it
    prints one line and returns [None].  For [None] itself the line is the
    one of its [TypeError] clause. *)
Theorem original_never_raises (object_mul : pyobject -> Z -> IO pyval)
    (v : pyval) (w : world) :
  (∃ r w', original_example_function object_mul v w = (Ok r, w')) ∧
  (∀ e w1, value_mul object_mul v 2 w = (Raise e, w1) ->
           ∃ line, original_example_function object_mul v w
                   = (Ok VNone, {| w_state := w_state w1;
                                   w_stdout := w_stdout w1 ++ [line] |})) ∧
  original_example_function object_mul VNone w
  = (Ok VNone,
     {| w_state := w_state w;
        w_stdout := w_stdout w ++
          ["Error: Input must be a type that supports multiplication (e.g., numbers or strings)"] |}).
Proof.
  split_and!.
  - unfold original_example_function, io_try, io_bind.
    destruct (value_mul object_mul v 2 w) as [[r|e] w1]; [by eexists _, _|].
    destruct (exn_cls e); by eexists _, _.
  - intros e w1 H. unfold original_example_function, io_try, io_bind. rewrite H.
    destruct (exn_cls e); by eexists.
  - reflexivity.
Qed.

(** ** [measure_performance] *)

Section MeasureProperties.

Context {A : Type}.
Variable func : list pyval -> IO A.

(** One step of the inner loop never raises and counts once. *)
Lemma measure_call_counts args results errs w :
  ∃ acc w',
    measure_call func args results errs w = (Ok acc, w') ∧
    (Z.of_nat (length (fst acc)) + snd acc
     = Z.of_nat (length results) + errs + 1)%Z ∧
    (errs <= snd acc)%Z.
Proof.
  unfold measure_call, io_try, io_bind.
  destruct (match args with [a] => func [a] | _ => func args end w) as [[r|e] w'].
  - eexists _, _. split; [reflexivity|]. cbn. rewrite length_app. cbn. lia.
  - eexists _, _. split; [reflexivity|]. cbn. lia.
Qed.

Lemma measure_args_counts args_list : ∀ results errs w,
  ∃ acc w',
    measure_args func args_list results errs w = (Ok acc, w') ∧
    (Z.of_nat (length (fst acc)) + snd acc
     = Z.of_nat (length results) + errs + Z.of_nat (length args_list))%Z ∧
    (errs <= snd acc)%Z.
Proof.
  induction args_list as [|args rest IH]; intros results errs w; cbn [measure_args].
  - eexists _, _. split; [reflexivity|]. cbn. lia.
  - unfold io_bind.
    destruct (measure_call_counts args results errs w) as ([rs1 e1] & w1 & -> & H1 & L1).
    cbn [fst snd] in *.
    destruct (IH rs1 e1 w1) as (acc & w' & -> & H2 & L2).
    exists acc, w'. split; [reflexivity|]. cbn [fst snd length] in *. lia.
Qed.

Lemma measure_iterations_counts n args_list : ∀ results errs w,
  ∃ acc w',
    measure_iterations func n args_list results errs w = (Ok acc, w') ∧
    (Z.of_nat (length (fst acc)) + snd acc
     = Z.of_nat (length results) + errs + Z.of_nat (n * length args_list))%Z ∧
    (errs <= snd acc)%Z.
Proof.
  induction n as [|n IH]; intros results errs w; cbn [measure_iterations].
  - eexists _, _. split; [reflexivity|]. cbn. lia.
  - unfold io_bind.
    destruct (measure_args_counts args_list results errs w)
      as ([rs1 e1] & w1 & -> & H1 & L1).
    cbn [fst snd] in *.
    destruct (IH rs1 e1 w1) as (acc & w' & -> & H2 & L2).
    exists acc, w'. split; [reflexivity|]. cbn [fst snd] in *. lia.
Qed.

(** Without a tuple to call on, the loops call nothing. *)
Lemma measure_iterations_nil n : ∀ results errs w,
  measure_iterations func n [] results errs w = (Ok (results, errs), w).
Proof. induction n as [|n IH]; intros results errs w; cbn; [done|apply IH]. Qed.

End MeasureProperties.






(** Every call is counted once: when [measure_performance] returns, the
    successful calls and the errors add up to the number of iterations
    (none when [iterations] is negative) times the number of tuples, and
    the sample holds at most five results. *)
Theorem measure_counts_every_call {A : Type} (func : list pyval -> IO A)
    (args_list : list (list pyval)) (iterations : Z) (env : readings)
    (w w' : world) (m : metrics A) :
  measure_performance func args_list iterations env w = (Ok m, w') ->
  (Z.of_nat (successful_calls m) + errors m
   = Z.of_nat (Z.to_nat iterations * length args_list))%Z ∧
  (0 <= errors m)%Z ∧
  length (results_sample m) <= 5 ∧
  length (results_sample m) <= successful_calls m.
Proof.
  unfold measure_performance, io_bind at 1.
  destruct (measure_iterations_counts func (Z.to_nat iterations) args_list [] 0%Z w)
    as ([rs er] & w1 & -> & Hcount & Hle).
  cbn [fst snd length] in *.
  unfold io_bind.
  destruct (float_div_int _ _ w1) as [[avg|e] w2]; [|discriminate].
  destruct (int_div_1024 _ w2) as [[c1|e] w3]; [|discriminate].
  destruct (float_div_int c1 _ w3) as [[c2|e] w4]; [|discriminate].
  destruct (int_div_1024 _ w4) as [[p1|e] w5]; [|discriminate].
  destruct (float_div_int p1 _ w5) as [[p2|e] w6]; [|discriminate].
  intros [= <- _]. cbn.
  split_and!; [lia|lia| |].
  - destruct rs; [cbn; lia|]. rewrite length_take. lia.
  - destruct rs; [cbn; lia|]. rewrite length_take. lia.
Qed.

Lemma measure_counts_every_call_witness :
  ∃ m w',
    measure_performance always_fails [[VInt 1]; [VInt 2; VInt 3]] 2 sample_readings
      sample_world = (Ok m, w') ∧
    (Z.of_nat (successful_calls m) + errors m = 4)%Z.
Proof.
  eexists _, _. split; [vm_compute; reflexivity|].
  exact (proj1 (measure_counts_every_call always_fails [[VInt 1]; [VInt 2; VInt 3]] 2
                  sample_readings sample_world _ _ eq_refl)).
Defined.

(** With no tuple, or with zero iterations, [measure_performance] calls
    nothing and raises [ZeroDivisionError] when it computes the average
    time per call. *)
Theorem measure_nothing_divides_by_zero {A : Type} (func : list pyval -> IO A)
    (args_list : list (list pyval)) (iterations : Z) (env : readings) (w : world) :
  (iterations * Z.of_nat (length args_list) = 0)%Z ->
  ∃ e, measure_performance func args_list iterations env w = (Raise e, w) ∧
       exn_name e = "ZeroDivisionError".
Proof.
  intros Hz. exists zero_division_error. split; [|reflexivity].
  unfold measure_performance, io_bind at 1.
  assert (measure_iterations func (Z.to_nat iterations) args_list [] 0%Z w
          = (Ok ([], 0%Z), w)) as ->.
  { destruct args_list as [|args rest]; [apply measure_iterations_nil|].
    cbn [length] in Hz. by replace iterations with 0%Z by lia. }
  unfold io_bind at 1. by rewrite Hz.
Qed.

Lemma measure_nothing_divides_by_zero_witness :
  (1000 * Z.of_nat (length (@nil (list pyval))) = 0)%Z ∧
  ∃ e, measure_performance always_fails [] 1000 sample_readings sample_world
       = (Raise e, sample_world) ∧
       exn_name e = "ZeroDivisionError".
Proof.
  split; [reflexivity|].
  exact (measure_nothing_divides_by_zero always_fails [] 1000 sample_readings
           sample_world eq_refl).
Defined.

